(** * MTGP32-23209 on CUDA (mtgp32-cuda256-tex.cu): a shallow embedding

    The file embeds the device functions, the two kernels and the host
    functions that load the parameter tables, and proves what the
    specification says about them.

    - A [uint32_t] is a [Z] in [0, 2^32); the only operation of the source
      that can leave that range is the left shift, whose wrap-around is
      written out with [wrap32].
    - An array is a [list Z].  Every subscript of the source goes through
      [ld] or [sto], which compare the index with the declared size of the
      array: an index outside it is undefined behaviour in C and is reported
      as [Fault (OutOfBounds region index)].
    - The 256 threads of a block are the lanes [0 .. THREAD_NUM-1].  They
      advance statement by statement, all lanes finishing a statement before
      any lane starts the next one.  The interleavings that the commented-out
      [__syncthreads()] of the source would allow between warps are outside
      this model. *)

From Stdlib Require Import ZArith Lia List Bool.
From stdpp Require Import base list list_numbers.
Local Open Scope Z_scope.

(* ================================================================= *)
(** ** Constants of the source *)

Definition MEXP : Z := 23209.
Definition N : Z := 726.
Definition THREAD_NUM : Z := 256.
Definition LARGE_SIZE : Z := THREAD_NUM * 4.
Definition BLOCK_NUM_MAX : Z := 128.
Definition TBL_SIZE : Z := 16.

(** [__constant__ uint32_t mask = 0xff800000;] *)
Definition mask : Z := 0xff800000.

(* ================================================================= *)
(** ** Machine words *)

Definition is_u32 (z : Z) : Prop := 0 <= z < 2 ^ 32.

(** Reduction of an unsigned 32-bit result. *)
Definition wrap32 (z : Z) : Z := z mod 2 ^ 32.

(** [uint32_t] to [int] (two's complement), as in [int pos = pos_tbl[bid]]. *)
Definition int_of_u32 (z : Z) : Z := if z <? 2 ^ 31 then z else z - 2 ^ 32.

(** [a << s] on [uint32_t]. *)
Definition shl32 (a s : Z) : Z := wrap32 (Z.shiftl a s).

(** [a >> s] on [uint32_t]. *)
Definition shr32 (a s : Z) : Z := Z.shiftr a s.

(* ================================================================= *)
(** ** Results of fallible code *)

Inductive region : Type :=
| Shared      (* __shared__ uint32_t status[LARGE_SIZE] *)
| DStatus     (* d_status[bid].status[N] *)
| DData       (* d_data, the output buffer *)
| Params      (* the array of parameter sets handed to the host functions *)
| Host        (* a malloc'ed host table *)
| Symbol.     (* a __constant__ table of BLOCK_NUM_MAX words *)

Inductive fault : Type :=
| OutOfBounds (r : region) (i : Z)
| OutOfFuel
| DivideByZero.

Inductive res (A : Type) : Type :=
| Ok (a : A)
| Fault (f : fault).
Arguments Ok {A} a.
Arguments Fault {A} f.

#[global] Instance res_ret : MRet res := @Ok.
#[global] Instance res_bind : MBind res :=
  fun A B f m => match m with Ok a => f a | Fault e => Fault e end.
#[global] Instance res_fmap : FMap res :=
  fun A B f m => match m with Ok a => Ok (f a) | Fault e => Fault e end.

Definition in_bounds (bound i : Z) : bool := (0 <=? i) && (i <? bound).

(** [a[i]] read from an array declared with [bound] elements. *)
Definition ld (r : region) (bound : Z) (a : list Z) (i : Z) : res Z :=
  if in_bounds bound i then Ok (nth (Z.to_nat i) a 0)
  else Fault (OutOfBounds r i).

(** [a[i] = v] on an array declared with [bound] elements. *)
Definition sto (r : region) (bound : Z) (a : list Z) (i v : Z) : res (list Z) :=
  if in_bounds bound i then Ok (<[Z.to_nat i := v]> a)
  else Fault (OutOfBounds r i).

(** A loop body run once for every element of [ts], in order. *)
Fixpoint for_each {T S : Type} (f : T -> S -> res S) (ts : list T) (s : S) : res S :=
  match ts with
  | [] => Ok s
  | t :: ts' => s' ← f t s; for_each f ts' s'
  end.

(** [for (int i = 0; i < n; i++)]. *)
Definition for_range {S : Type} (n : Z) (f : Z -> S -> res S) (s : S) : res S :=
  for_each f (seqZ 0 n) s.

(** [for (int i = 0; i < size; i += step)], with the test of the source
    evaluated before every iteration. *)
Fixpoint for_step {S : Type} (fuel : nat) (step size i : Z)
    (f : Z -> S -> res S) (s : S) : res S :=
  if i <? size then
    match fuel with
    | O => Fault OutOfFuel
    | Datatypes.S fuel' => s' ← f i s; for_step fuel' step size (i + step) f s'
    end
  else Ok s.

(* ================================================================= *)
(** ** Parameter sets and device tables *)

(** Modelled from the spec: [mtgp32_params_fast_t] is declared in
    mtgp32-fast.h, which is not part of the sources; the fields are the ones
    [make_constant] and [make_texture] read.  The three tables are
    [uint32_t[16]] in C. *)
Record mtgp32_params_fast_t : Type := {
  pos : Z;
  sh1 : Z;
  sh2 : Z;
  tbl : list Z;
  tmp_tbl : list Z;
  flt_tmp_tbl : list Z
}.

(** The [__constant__] tables and the three textures. *)
Record device : Type := {
  pos_tbl : list Z;
  sh1_tbl : list Z;
  sh2_tbl : list Z;
  tex_param_ref : list Z;
  tex_temper_ref : list Z;
  tex_single_ref : list Z
}.

(** [tbl[bid]] on a [__constant__] table. *)
Definition cread (t : list Z) (bid : Z) : Z := nth (Z.to_nat bid) t 0.

(** [tex1Dfetch(tex, i)] on a texture bound to linear memory: a fetch
    outside the bound range yields zero. *)
Definition tex1Dfetch (t : list Z) (i : Z) : Z :=
  if i <? 0 then 0 else nth (Z.to_nat i) t 0.

(* ================================================================= *)
(** ** Device functions *)

(** [para_rec]: the recursion formula. *)
Definition para_rec (dev : device) (X1 X2 Y bid : Z) : Z :=
  let X := Z.lxor (Z.land X1 mask) X2 in
  let X := Z.lxor X (shl32 X (cread (sh1_tbl dev) bid)) in
  let Y := Z.lxor X (shr32 Y (cread (sh2_tbl dev) bid)) in
  let MAT := tex1Dfetch (tex_param_ref dev) (bid * 16 + Z.land Y 0x0f) in
  Z.lxor Y MAT.

(** [temper]: the tempering function. *)
Definition temper (dev : device) (V T bid : Z) : Z :=
  let T := Z.lxor T (shr32 T 16) in
  let T := Z.lxor T (shr32 T 8) in
  let MAT := tex1Dfetch (tex_temper_ref dev) (bid * 16 + Z.land T 0x0f) in
  Z.lxor V MAT.

(** [temper_single]: tempering and conversion to the IEEE format. *)
Definition temper_single (dev : device) (V T bid : Z) : Z :=
  let T := Z.lxor T (shr32 T 16) in
  let T := Z.lxor T (shr32 T 8) in
  let MAT := tex1Dfetch (tex_single_ref dev) (bid * 16 + Z.land T 0x0f) in
  let r := Z.lxor (shr32 V 9) MAT in
  r.

(* ================================================================= *)
(** ** The recurrence and the tempering in the words of the specification *)

(** [next(x1, x2, y, params)] of section 4.1, on one parameter set. *)
Definition spec_next (p : mtgp32_params_fast_t) (x1 x2 y : Z) : Z :=
  let x := Z.lxor (Z.land x1 0xff800000) x2 in
  let x := Z.lxor x (Z.shiftl x (sh1 p) mod 2 ^ 32) in
  let y := Z.lxor x (Z.shiftr y (sh2 p)) in
  Z.lxor y (nth (Z.to_nat (y mod 16)) (tbl p) 0).

(** The reduction [t ^= t >> 16; t ^= t >> 8] shared by both temperings. *)
Definition spec_reduce (t : Z) : Z :=
  let t := Z.lxor t (Z.shiftr t 16) in
  Z.lxor t (Z.shiftr t 8).

(** [temperInt(v, t, params)] of section 4.2. *)
Definition spec_temperInt (p : mtgp32_params_fast_t) (v t : Z) : Z :=
  Z.lxor v (nth (Z.to_nat (spec_reduce t mod 16)) (tmp_tbl p) 0).

(** [temperFloat(v, t, params)] of section 4.2. *)
Definition spec_temperFloat (p : mtgp32_params_fast_t) (v t : Z) : Z :=
  Z.lxor (Z.shiftr v 9) (nth (Z.to_nat (spec_reduce t mod 16)) (flt_tmp_tbl p) 0).

(** A float-tempering entry with sign 0 and exponent 127, the upper nine
    bits of [0x3F800000]. *)
Definition exponent_one (e : Z) : Prop := Z.shiftr e 23 = Z.shiftr 0x3F800000 23.

(* ================================================================= *)
(** ** Host functions that load the tables *)

(** [malloc]/[cudaMalloc] of [n] words.  Allocation failure, which the
    source answers with [exit], is not modelled. *)
Definition malloc (n : Z) : list Z := replicate (Z.to_nat n) 0.

(** [params[i]]. *)
Definition ld_params (params : list mtgp32_params_fast_t) (i : Z)
  : res mtgp32_params_fast_t :=
  if in_bounds (Z.of_nat (length params)) i then
    match params !! Z.to_nat i with
    | Some p => Ok p
    | None => Fault (OutOfBounds Params i)
    end
  else Fault (OutOfBounds Params i).

(** [cudaMemcpyToSymbol(sym, h, sizeof(uint32_t) * n)] on a table of
    [BLOCK_NUM_MAX] words. *)
Definition cudaMemcpyToSymbol (sym h : list Z) (n : Z) : res (list Z) :=
  if in_bounds (BLOCK_NUM_MAX + 1) n then
    Ok (take (Z.to_nat n) h ++ drop (Z.to_nat n) sym)
  else Fault (OutOfBounds Symbol n).

(** [make_constant]: sets the constants in device memory. *)
Definition make_constant (params : list mtgp32_params_fast_t) (block_num : Z)
    (dev : device) : res device :=
  '(h_pos_tbl, h_sh1_tbl, h_sh2_tbl) ←
    for_range block_num
      (fun i '(h_pos_tbl, h_sh1_tbl, h_sh2_tbl) =>
         p ← ld_params params i;
         h_pos_tbl ← sto Host block_num h_pos_tbl i (wrap32 (pos p));
         h_sh1_tbl ← sto Host block_num h_sh1_tbl i (wrap32 (sh1 p));
         h_sh2_tbl ← sto Host block_num h_sh2_tbl i (wrap32 (sh2 p));
         mret (h_pos_tbl, h_sh1_tbl, h_sh2_tbl))
      (malloc block_num, malloc block_num, malloc block_num);
  pos_tbl' ← cudaMemcpyToSymbol (pos_tbl dev) h_pos_tbl block_num;
  sh1_tbl' ← cudaMemcpyToSymbol (sh1_tbl dev) h_sh1_tbl block_num;
  sh2_tbl' ← cudaMemcpyToSymbol (sh2_tbl dev) h_sh2_tbl block_num;
  mret {| pos_tbl := pos_tbl'; sh1_tbl := sh1_tbl'; sh2_tbl := sh2_tbl';
          tex_param_ref := tex_param_ref dev;
          tex_temper_ref := tex_temper_ref dev;
          tex_single_ref := tex_single_ref dev |}.

(** [make_texture]: sets the texture lookup tables.  The three device
    buffers hold [block_num * TBL_SIZE] words each and the textures are
    bound to exactly that many. *)
Definition make_texture (params : list mtgp32_params_fast_t) (block_num : Z)
    (dev : device) : res device :=
  let count := block_num * TBL_SIZE in
  '(h0, h1, h2) ←
    for_range block_num
      (fun i h =>
         for_range TBL_SIZE
           (fun j '(h0, h1, h2) =>
              p ← ld_params params i;
              a ← ld Params TBL_SIZE (tbl p) j;
              h0 ← sto Host count h0 (i * TBL_SIZE + j) a;
              b ← ld Params TBL_SIZE (tmp_tbl p) j;
              h1 ← sto Host count h1 (i * TBL_SIZE + j) b;
              c ← ld Params TBL_SIZE (flt_tmp_tbl p) j;
              h2 ← sto Host count h2 (i * TBL_SIZE + j) c;
              mret (h0, h1, h2))
           h)
      (malloc count, malloc count, malloc count);
  mret {| pos_tbl := pos_tbl dev; sh1_tbl := sh1_tbl dev; sh2_tbl := sh2_tbl dev;
          tex_param_ref := h0; tex_temper_ref := h1; tex_single_ref := h2 |}.

(** The device before [main] loads anything: the [__constant__] tables are
    zero-initialised and no texture is bound. *)
Definition device0 : device :=
  {| pos_tbl := malloc BLOCK_NUM_MAX; sh1_tbl := malloc BLOCK_NUM_MAX;
     sh2_tbl := malloc BLOCK_NUM_MAX;
     tex_param_ref := []; tex_temper_ref := []; tex_single_ref := [] |}.

(** The two loading calls of [main], in its order. *)
Definition load_device (params : list mtgp32_params_fast_t) (block_num : Z)
  : res device :=
  dev ← make_constant params block_num device0;
  make_texture params block_num dev.

(* ================================================================= *)
(** ** The lanes of a block *)

(** [threadIdx.x] ranges over [0 .. THREAD_NUM-1]: both kernels are launched
    with [<<< block_num, THREAD_NUM >>>]. *)
Definition lanes : list Z := seqZ 0 THREAD_NUM.

(* ================================================================= *)
(** ** Saving and restoring the state *)

(** One guarded assignment of [status_read]/[status_write]: for a lane
    [tid] that passes [guard], the slot [sh_ix tid] of the shared buffer and
    the word [ds_ix tid] of the saved state. *)
Record copy : Type := {
  guard : Z -> bool;
  sh_ix : Z -> Z;
  ds_ix : Z -> Z
}.

(** The three assignments of [status_read], in the order of the source. *)
Definition status_read_copies : list copy :=
  [ {| guard := fun tid => true;
       sh_ix := fun tid => LARGE_SIZE - N + tid;
       ds_ix := fun tid => tid |};
    {| guard := fun tid => true;
       sh_ix := fun tid => LARGE_SIZE - N + THREAD_NUM + tid;
       ds_ix := fun tid => THREAD_NUM + tid |};
    {| guard := fun tid => tid <? N - THREAD_NUM;
       sh_ix := fun tid => 6 * THREAD_NUM - N + tid;
       ds_ix := fun tid => 2 * THREAD_NUM + tid |} ].

(** The three assignments of [status_write], in the order of the source. *)
Definition status_write_copies : list copy :=
  [ {| guard := fun tid => true;
       sh_ix := fun tid => LARGE_SIZE - N + tid;
       ds_ix := fun tid => tid |};
    {| guard := fun tid => true;
       sh_ix := fun tid => LARGE_SIZE - N + THREAD_NUM + tid;
       ds_ix := fun tid => THREAD_NUM + tid |};
    {| guard := fun tid => tid <? N - THREAD_NUM;
       sh_ix := fun tid => 6 * THREAD_NUM - N + tid;
       ds_ix := fun tid => 2 * THREAD_NUM + tid |} ].

(** [status[sh_ix] = d_status[bid].status[ds_ix]] in lane [tid]. *)
Definition read_lane (c : copy) (d_status : list Z) (tid : Z) (status : list Z)
  : res (list Z) :=
  if guard c tid then
    v ← ld DStatus N d_status (ds_ix c tid);
    sto Shared LARGE_SIZE status (sh_ix c tid) v
  else mret status.

(** [d_status[bid].status[ds_ix] = status[sh_ix]] in lane [tid]. *)
Definition write_lane (c : copy) (status : list Z) (tid : Z) (d_status : list Z)
  : res (list Z) :=
  if guard c tid then
    v ← ld Shared LARGE_SIZE status (sh_ix c tid);
    sto DStatus N d_status (ds_ix c tid) v
  else mret d_status.

(** [status_read]: the saved state of the block is put into shared memory. *)
Definition status_read (status d_status : list Z) : res (list Z) :=
  for_each (fun c => for_each (read_lane c d_status) lanes)
    status_read_copies status.

(** [status_write]: shared memory is written back into the saved state. *)
Definition status_write (d_status status : list Z) : res (list Z) :=
  for_each (fun c => for_each (write_lane c status) lanes)
    status_write_copies d_status.

(* ================================================================= *)
(** ** The four phases of a batch *)

(** The subscripts of one phase, as functions of the lane: the three
    operands of [para_rec], the slot that receives the new word, the operand
    of the tempering and the place of the output in [d_data]. *)
Record phase : Type := {
  rd_x1 : Z -> Z;
  rd_x2 : Z -> Z;
  rd_y : Z -> Z;
  wr : Z -> Z;
  rd_t : Z -> Z;
  out : Z -> Z
}.

(** The recursion of one lane: [r = para_rec(status[..], status[..],
    status[..], bid)]. *)
Definition rec_lane (dev : device) (bid : Z) (ph : phase) (status : list Z)
    (tid : Z) : res Z :=
  X1 ← ld Shared LARGE_SIZE status (rd_x1 ph tid);
  X2 ← ld Shared LARGE_SIZE status (rd_x2 ph tid);
  Y ← ld Shared LARGE_SIZE status (rd_y ph tid);
  mret (para_rec dev X1 X2 Y bid).

(** The tempering of one lane: [o = temper(r, status[..], bid)]. *)
Definition temper_lane (tmp : device -> Z -> Z -> Z -> Z) (dev : device)
    (bid : Z) (ph : phase) (status : list Z) (tr : Z * Z) : res Z :=
  T ← ld Shared LARGE_SIZE status (rd_t ph tr.1);
  mret (tmp dev tr.2 T bid).

(** One phase on all lanes: the recursion, [status[..] = r], the tempering,
    [d_data[..] = o].  All lanes finish a statement before any lane starts
    the next one, and a phase before the next phase: the lanes run as if a
    barrier stood after every phase.  The source has one after the second
    and the fourth phase only ([//__syncthreads()] after the first and the
    third); the words that warps running ahead of each other would compute
    there are not what this function computes. *)
Definition run_phase (tmp : device -> Z -> Z -> Z -> Z) (dev : device)
    (bid : Z) (ph : phase) (s : list Z * list Z) : res (list Z * list Z) :=
  let '(status, d_data) := s in
  rs ← mapM (rec_lane dev bid ph status) lanes;
  status ← for_each (fun tr st => sto Shared LARGE_SIZE st (wr ph tr.1) tr.2)
             (zip lanes rs) status;
  os ← mapM (temper_lane tmp dev bid ph status) (zip lanes rs);
  d_data ← for_each
             (fun to d => sto DData (Z.of_nat (length d_data)) d (out ph to.1) to.2)
             (zip lanes os) d_data;
  mret (status, d_data).

(** The body of the main loop of [mtgp32_uint32_kernel]. *)
Definition uint32_phases (pos size bid i : Z) : list phase :=
  [ (* 1 *)
    {| rd_x1 := fun tid => LARGE_SIZE - N + tid;
       rd_x2 := fun tid => LARGE_SIZE - N + tid + 1;
       rd_y := fun tid => LARGE_SIZE - N + tid + pos;
       wr := fun tid => tid;
       rd_t := fun tid => LARGE_SIZE - N + tid + pos - 1;
       out := fun tid => size * bid + i + tid |};
    (* 2 *)
    {| rd_x1 := fun tid => Z.rem (5 * THREAD_NUM - N + tid) LARGE_SIZE;
       rd_x2 := fun tid => Z.rem (5 * THREAD_NUM - N + tid + 1) LARGE_SIZE;
       rd_y := fun tid => Z.rem (5 * THREAD_NUM - N + tid + pos) LARGE_SIZE;
       wr := fun tid => tid + THREAD_NUM;
       rd_t := fun tid => Z.rem (5 * THREAD_NUM - N + tid + pos - 1) LARGE_SIZE;
       out := fun tid => size * bid + THREAD_NUM + i + tid |};
    (* 3 *)
    {| rd_x1 := fun tid => 6 * THREAD_NUM - N + tid;
       rd_x2 := fun tid => 6 * THREAD_NUM - N + tid + 1;
       rd_y := fun tid => 6 * THREAD_NUM - N + tid + pos;
       wr := fun tid => tid + 2 * THREAD_NUM;
       rd_t := fun tid => tid + pos - 1 + 6 * THREAD_NUM - N;
       out := fun tid => size * bid + 2 * THREAD_NUM + i + tid |};
    (* 4 *)
    {| rd_x1 := fun tid => 3 * THREAD_NUM - N + tid;
       rd_x2 := fun tid => 3 * THREAD_NUM - N + tid + 1;
       rd_y := fun tid => 3 * THREAD_NUM - N + tid + pos;
       wr := fun tid => tid + 3 * THREAD_NUM;
       rd_t := fun tid => tid + pos - 1 + 3 * THREAD_NUM - N;
       out := fun tid => size * bid + 3 * THREAD_NUM + i + tid |} ].

(** The body of the main loop of [mtgp32_single_kernel]. *)
Definition single_phases (pos size bid i : Z) : list phase :=
  [ (* 1 *)
    {| rd_x1 := fun tid => LARGE_SIZE - N + tid;
       rd_x2 := fun tid => LARGE_SIZE - N + tid + 1;
       rd_y := fun tid => LARGE_SIZE - N + tid + pos;
       wr := fun tid => tid;
       rd_t := fun tid => LARGE_SIZE - N + tid + pos - 1;
       out := fun tid => size * bid + i + tid |};
    (* 2 *)
    {| rd_x1 := fun tid => 5 * THREAD_NUM - N + tid;
       rd_x2 := fun tid => 5 * THREAD_NUM - N + tid + 1;
       rd_y := fun tid => 5 * THREAD_NUM - N + tid + pos;
       wr := fun tid => tid + THREAD_NUM;
       rd_t := fun tid => 5 * THREAD_NUM - N + tid + pos - 1;
       out := fun tid => size * bid + THREAD_NUM + i + tid |};
    (* 3 *)
    {| rd_x1 := fun tid => Z.rem (6 * THREAD_NUM - N + tid) LARGE_SIZE;
       rd_x2 := fun tid => Z.rem (6 * THREAD_NUM - N + tid + 1) LARGE_SIZE;
       rd_y := fun tid => Z.rem (6 * THREAD_NUM - N + tid + pos) LARGE_SIZE;
       wr := fun tid => tid + 2 * THREAD_NUM;
       rd_t := fun tid => Z.rem (tid + pos - 1 + 6 * THREAD_NUM - N) LARGE_SIZE;
       out := fun tid => size * bid + 2 * THREAD_NUM + i + tid |};
    (* 4 *)
    {| rd_x1 := fun tid => 3 * THREAD_NUM - N + tid;
       rd_x2 := fun tid => 3 * THREAD_NUM - N + tid + 1;
       rd_y := fun tid => 3 * THREAD_NUM - N + tid + pos;
       wr := fun tid => tid + 3 * THREAD_NUM;
       rd_t := fun tid => tid + pos - 1 + 3 * THREAD_NUM - N;
       out := fun tid => size * bid + 3 * THREAD_NUM + i + tid |} ].

(** One pass through the four phases, at loop counter [i]. *)
Definition uint32_batch (dev : device) (bid pos size i : Z)
    (s : list Z * list Z) : res (list Z * list Z) :=
  for_each (run_phase temper dev bid) (uint32_phases pos size bid i) s.

Definition single_batch (dev : device) (bid pos size i : Z)
    (s : list Z * list Z) : res (list Z * list Z) :=
  for_each (run_phase temper_single dev bid) (single_phases pos size bid i) s.

(* ================================================================= *)
(** ** The kernels *)

(** [mtgp32_uint32_kernel], block [bid].  [status] is the shared memory of
    the block as the kernel finds it, [d_status] the saved state
    [d_status[bid].status].  The result is the saved state and [d_data] after
    the kernel. *)
Definition mtgp32_uint32_kernel (dev : device) (bid : Z)
    (status d_status d_data : list Z) (size : Z) : res (list Z * list Z) :=
  let pos := int_of_u32 (cread (pos_tbl dev) bid) in
  status ← status_read status d_status;
  '(status, d_data) ←
    for_step (Z.to_nat size) LARGE_SIZE size 0
      (uint32_batch dev bid pos size) (status, d_data);
  d_status ← status_write d_status status;
  mret (d_status, d_data).

(** [mtgp32_single_kernel], block [bid]. *)
Definition mtgp32_single_kernel (dev : device) (bid : Z)
    (status d_status d_data : list Z) (size : Z) : res (list Z * list Z) :=
  let pos := int_of_u32 (cread (pos_tbl dev) bid) in
  status ← status_read status d_status;
  '(status, d_data) ←
    for_step (Z.to_nat size) LARGE_SIZE size 0
      (single_batch dev bid pos size) (status, d_data);
  d_status ← status_write d_status status;
  mret (d_status, d_data).

(* ================================================================= *)
(** ** The request of [main] *)

(** The adjustment of [num_data] in [main]:
    [r = num_data % num_unit; if (r != 0) num_data = num_data + num_unit - r],
    in the integers.  [main] computes it in [int]: the result is that of
    the source as long as [num_data] and [num_data + num_unit] are [int]s,
    which the statements about it assume and [main_arguments] tests. *)
Definition main_num_data (num_data block_num : Z) : Z :=
  let num_unit := LARGE_SIZE * block_num in
  let r := Z.rem num_data num_unit in
  if negb (r =? 0) then num_data + num_unit - r else num_data.

(* ================================================================= *)
(** ** The sequential generator of the specification *)

(** Modelled from the spec: the naive single-lane implementation of section 8
    (no phases, no barriers).  The state is the window of the last [N] words,
    oldest first; one step reads the words 0, 1 and [pos] of the window for
    the recurrence and the word [pos - 1] for the tempering, and slides the
    window by one. *)
Definition seq_step (tmp : device -> Z -> Z -> Z -> Z) (dev : device)
    (bid pos : Z) (s : list Z) : list Z * Z :=
  let r := para_rec dev (nth 0 s 0) (nth 1 s 0) (nth (Z.to_nat pos) s 0) bid in
  let o := tmp dev r (nth (Z.to_nat (pos - 1)) s 0) bid in
  (drop 1 s ++ [r], o).

Fixpoint seq_generate (tmp : device -> Z -> Z -> Z -> Z) (dev : device)
    (bid pos : Z) (n : nat) (s : list Z) : list Z * list Z :=
  match n with
  | O => (s, [])
  | Datatypes.S n' =>
      let '(s1, o) := seq_step tmp dev bid pos s in
      let '(s2, os) := seq_generate tmp dev bid pos n' s1 in
      (s2, o :: os)
  end.

(* ================================================================= *)
(** ** Invariants of the loading loops *)

(** The three host tables of [make_constant] after [i] iterations. *)
Definition constant_inv (params : list mtgp32_params_fast_t) (block_num : Z)
    (i : Z) (h : list Z * list Z * list Z) : Prop :=
  length h.1.1 = Z.to_nat block_num /\
  length h.1.2 = Z.to_nat block_num /\
  length h.2 = Z.to_nat block_num /\
  forall bid p, 0 <= bid < i -> params !! Z.to_nat bid = Some p ->
    nth (Z.to_nat bid) h.1.1 0 = wrap32 (pos p) /\
    nth (Z.to_nat bid) h.1.2 0 = wrap32 (sh1 p) /\
    nth (Z.to_nat bid) h.2 0 = wrap32 (sh2 p).

(** The three host tables of [make_texture] once the entries [done] are
    written. *)
Definition texture_inv (params : list mtgp32_params_fast_t) (block_num : Z)
    (done : Z -> Z -> Prop) (h : list Z * list Z * list Z) : Prop :=
  length h.1.1 = Z.to_nat (block_num * TBL_SIZE) /\
  length h.1.2 = Z.to_nat (block_num * TBL_SIZE) /\
  length h.2 = Z.to_nat (block_num * TBL_SIZE) /\
  forall bid j p, done bid j -> 0 <= bid < block_num -> 0 <= j < TBL_SIZE ->
    params !! Z.to_nat bid = Some p ->
    nth (Z.to_nat (bid * TBL_SIZE + j)) h.1.1 0 = nth (Z.to_nat j) (tbl p) 0 /\
    nth (Z.to_nat (bid * TBL_SIZE + j)) h.1.2 0 = nth (Z.to_nat j) (tmp_tbl p) 0 /\
    nth (Z.to_nat (bid * TBL_SIZE + j)) h.2 0 = nth (Z.to_nat j) (flt_tmp_tbl p) 0.

(* ================================================================= *)
(** ** The parameter sets of the specification, and two examples *)

(** Modelled from the spec: a [ParameterSet] as section 3 and section 7
    accept it. *)
Definition valid_params (p : mtgp32_params_fast_t) : Prop :=
  1 <= pos p <= N - 1 /\ 1 <= sh1 p <= 31 /\ 1 <= sh2 p <= 31 /\
  length (tbl p) = 16%nat /\ length (tmp_tbl p) = 16%nat /\
  length (flt_tmp_tbl p) = 16%nat.

(** A parameter set inside the ranges of the specification. *)
Definition example_params : mtgp32_params_fast_t :=
  {| pos := 84; sh1 := 12; sh2 := 4;
     tbl := [0x00000000; 0x71588353; 0xdfa887c1; 0xaef00492;
             0x4ba66c6e; 0x3afeef3d; 0x940eebaf; 0xe55668fc;
             0xa53da0ae; 0xd46523fd; 0x7a95276f; 0x0bcda43c;
             0xee9bccc0; 0x9fc34f93; 0x31334b01; 0x406bc852];
     tmp_tbl := [0x00000000; 0x200040bb; 0x1082c61e; 0x308286a5;
                 0x10021c03; 0x30025cb8; 0x0080da1d; 0x20809aa6;
                 0x0003f0b9; 0x2003b002; 0x108136a7; 0x3081761c;
                 0x1001ecba; 0x3001ac01; 0x00832aa4; 0x20836a1f];
     flt_tmp_tbl := [0x3f800000; 0x3f900020; 0x3f884163; 0x3f984143;
                     0x3f88010e; 0x3f98012e; 0x3f80406d; 0x3f90404d;
                     0x3f8001f8; 0x3f9001d8; 0x3f88409b; 0x3f9840bb;
                     0x3f8800f6; 0x3f9800d6; 0x3f804195; 0x3f9041b5] |}.

(** The device loaded with [example_params] for one block. *)
Definition example_device : device :=
  match load_device [example_params] 1 with
  | Ok dev => dev
  | Fault _ => device0
  end.

(** A parameter set outside the ranges of the specification: [pos] is 0 and
    beyond [N - 1], the shifts are 0 and 40. *)
Definition bad_params : mtgp32_params_fast_t :=
  {| pos := 0; sh1 := 0; sh2 := 40;
     tbl := tbl example_params; tmp_tbl := tmp_tbl example_params;
     flt_tmp_tbl := flt_tmp_tbl example_params |}.

(* ================================================================= *)
(** ** Counts *)

(** Modelled from the spec: a count [generate] accepts, a positive multiple
    of the batch size [W = LARGE_SIZE]. *)
Definition valid_count (size : Z) : Prop := 0 < size /\ size mod LARGE_SIZE = 0.

(** The counter values of the main loop for a given [size]:
    [0, LARGE_SIZE, 2 * LARGE_SIZE, ...], one for every started block of
    [LARGE_SIZE] words. *)
Definition batch_list (size : Z) : list Z :=
  map (fun k => k * LARGE_SIZE) (seqZ 0 ((size + LARGE_SIZE - 1) / LARGE_SIZE)).

(* ================================================================= *)
(** ** Subscripts inside the arrays *)

(** A subscript of [status[LARGE_SIZE]]. *)
Definition sh_ok (i : Z) : Prop := 0 <= i < LARGE_SIZE.

(** A subscript of [d_status[bid].status[N]]. *)
Definition ds_ok (i : Z) : Prop := 0 <= i < N.

(** Lane [tid], when it passes the guard of the assignment [c], stays inside
    both arrays. *)
Definition copy_in_bounds (c : copy) (tid : Z) : Prop :=
  guard c tid = true -> sh_ok (sh_ix c tid) /\ ds_ok (ds_ix c tid).

(** Lane [tid] stays inside the shared buffer in all five accesses of the
    phase. *)
Definition phase_in_bounds (ph : phase) (tid : Z) : Prop :=
  sh_ok (rd_x1 ph tid) /\ sh_ok (rd_x2 ph tid) /\ sh_ok (rd_y ph tid) /\
  sh_ok (wr ph tid) /\ sh_ok (rd_t ph tid).

(* ================================================================= *)
(** ** A phase without the bounds checks *)

(** The word lane [tid] computes in a phase. *)
Definition rec_val (dev : device) (bid : Z) (ph : phase) (status : list Z)
    (tid : Z) : Z :=
  para_rec dev (nth (Z.to_nat (rd_x1 ph tid)) status 0)
               (nth (Z.to_nat (rd_x2 ph tid)) status 0)
               (nth (Z.to_nat (rd_y ph tid)) status 0) bid.

(** The stores [a[ix tid] = v] of the pairs [(tid, v)], in order. *)
Definition scatter (ix : Z -> Z) (tvs : list (Z * Z)) (a : list Z) : list Z :=
  foldl (fun a tv => <[Z.to_nat (ix tv.1) := tv.2]> a) a tvs.

Definition phase_words (dev : device) (bid : Z) (ph : phase) (status : list Z)
  : list Z :=
  map (rec_val dev bid ph status) lanes.

Definition phase_status (dev : device) (bid : Z) (ph : phase) (status : list Z)
  : list Z :=
  scatter (wr ph) (zip lanes (phase_words dev bid ph status)) status.

Definition phase_outputs (tmp : device -> Z -> Z -> Z -> Z) (dev : device)
    (bid : Z) (ph : phase) (status : list Z) : list Z :=
  map (fun tr => tmp dev tr.2
                   (nth (Z.to_nat (rd_t ph tr.1)) (phase_status dev bid ph status) 0)
                   bid)
      (zip lanes (phase_words dev bid ph status)).

Definition phase_data (tmp : device -> Z -> Z -> Z -> Z) (dev : device)
    (bid : Z) (ph : phase) (status d_data : list Z) : list Z :=
  scatter (out ph) (zip lanes (phase_outputs tmp dev bid ph status)) d_data.

(** The shared buffer [status] holds the window [W] of the last [N] words,
    oldest first, in the slots [base, base + 1, ...] taken modulo
    [LARGE_SIZE]. *)
Definition holds (base : Z) (status W : list Z) : Prop :=
  Z.of_nat (length status) = LARGE_SIZE /\
  Z.of_nat (length W) = N /\
  forall j, 0 <= j < N ->
    nth (Z.to_nat ((base + j) mod LARGE_SIZE)) status 0 = nth (Z.to_nat j) W 0.

(** The words [a, a + 1, ..., a + n - 1] of [d_data] replaced by [os]. *)
Definition splice (a : Z) (os d_data : list Z) : list Z :=
  take (Z.to_nat a) d_data ++ os ++ drop (Z.to_nat a + length os) d_data.

(* ================================================================= *)
(** ** Two calls in a row *)

(** [mtgp32_uint32_kernel] with size [A], then again with size [B] on the
    state the first call saved; each call has its own output buffer and
    finds its own shared memory. *)
Definition uint32_twice (dev : device) (bid : Z) (status1 status2 d_status : list Z)
    (d_data1 d_data2 : list Z) (A B : Z) : res (list Z * list Z * list Z) :=
  '(d_status, out1) ← mtgp32_uint32_kernel dev bid status1 d_status d_data1 A;
  '(d_status, out2) ← mtgp32_uint32_kernel dev bid status2 d_status d_data2 B;
  mret (d_status, out1, out2).

(* ================================================================= *)
(** ** The sequential generator, many steps at once *)

(** The recurrence words of the steps [ts] of the sequential generator, as
    long as every step reads inside the window [W] it started from. *)
Definition window_words (dev : device) (bid pos : Z) (W : list Z) (ts : list Z)
  : list Z :=
  map (fun t => para_rec dev (nth (Z.to_nat t) W 0) (nth (Z.to_nat (t + 1)) W 0)
                         (nth (Z.to_nat (t + pos)) W 0) bid) ts.

(** The tempered words of the same steps. *)
Definition window_outputs (tmp : device -> Z -> Z -> Z -> Z) (dev : device)
    (bid pos : Z) (W : list Z) (ts : list Z) : list Z :=
  map (fun t => tmp dev
                  (para_rec dev (nth (Z.to_nat t) W 0) (nth (Z.to_nat (t + 1)) W 0)
                            (nth (Z.to_nat (t + pos)) W 0) bid)
                  (nth (Z.to_nat (t + pos - 1)) W 0) bid) ts.

(** The phase [ph] reads the window that starts at slot [base]: lane [tid]
    takes the words [tid], [tid + 1], [tid + pos] and [tid + pos - 1] of the
    window, puts its new word [N] slots after the first one, all slots taken
    modulo [LARGE_SIZE], and writes its output at [obase + tid]. *)
Definition phase_at (ph : phase) (pos base obase : Z) : Prop :=
  forall tid, 0 <= tid < THREAD_NUM ->
    rd_x1 ph tid = (base + tid) mod LARGE_SIZE /\
    rd_x2 ph tid = (base + tid + 1) mod LARGE_SIZE /\
    rd_y ph tid = (base + tid + pos) mod LARGE_SIZE /\
    rd_t ph tid = (base + tid + pos - 1) mod LARGE_SIZE /\
    wr ph tid = (base + N) mod LARGE_SIZE + tid /\
    out ph tid = obase + tid.

(* ================================================================= *)
(** ** An example block *)

(** The shared buffer of a block at the start of a batch, 1024 words. *)
Definition example_status : list Z :=
  map (fun k => wrap32 (k * k * 2654435761 + k * 40503 + 99)) (seqZ 0 LARGE_SIZE).

(** The saved state of a block, 726 words. *)
Definition example_d_status : list Z := drop (Z.to_nat (LARGE_SIZE - N)) example_status.

(* ================================================================= *)
(** ** Printing the output *)

(** One [printf] of [print_uint32_array]: the five words
    [array[base], ..., array[base + 4]], appended to what was printed so
    far.  [array] is the host buffer [h_data], as long as it was allocated.
    C leaves open in which order the five arguments are read, so a row with
    a word outside the array is reported by its first subscript [base],
    whichever of its words is read first. *)
Definition print_row (array : list Z) (base : Z) (printed : list Z) : res (list Z) :=
  if forallb (in_bounds (Z.of_nat (length array)))
       [base; base + 1; base + 2; base + 3; base + 4]
  then mret (printed ++ map (fun i => nth (Z.to_nat i) array 0)
                          [base; base + 1; base + 2; base + 3; base + 4])
  else Fault (OutOfBounds Host base).

(** [print_uint32_array]: the words it prints, in order.  The three loops
    over [j] are the strided loops of the source, which run once, twice and
    once.  [b = size / block] divides by zero when [block] is 0.
    [print_float_array] has the same loops and subscripts. *)
Definition print_uint32_array (array : list Z) (size block : Z) : res (list Z) :=
  if block =? 0 then Fault DivideByZero
  else
    let b := Z.quot size block in
    printed ← for_step 1 5 5 0 (fun j => print_row array j) [];
    printed ← for_each
                (fun i => for_step 2 5 5 (-5) (fun j => print_row array (b * i + j)))
                (seqZ 1 (block - 1)) printed;
    for_step 1 5 0 (-5) (fun j => print_row array (size + j)) printed.

(** The five words from [base] on. *)
Definition row (array : list Z) (base : Z) : list Z :=
  take 5 (drop (Z.to_nat base) array).

(* ================================================================= *)
(** ** The arguments of [main] *)

(** What the argument handling of [main] ends in: a [return] with an exit
    code, the calls that load the device and generate [num_data] words on
    [block_num] blocks, a call of [strtol] on [argv[argc]], the null
    pointer that ends [argv], or a sum [num_data + num_unit] that leaves
    [int]. *)
Inductive main_outcome : Type :=
| Returned (code : Z)
| Generating (block_num num_data : Z)
| NullArgument
| IntOverflow.

(** The largest [int]. *)
Definition INT_MAX : Z := 2147483647.

(** [main] from its first line to the adjustment of [num_data].  [argv]
    holds [argv[0], ..., argv[argc - 1]]; [strtol a] is the value that
    [strtol(a, NULL, 10)] leaves in the [int] variable and whether it set
    [errno]. *)
Definition main_arguments {arg : Type} (strtol : arg -> Z * bool) (argv : list arg)
  : main_outcome :=
  let argc := Z.of_nat (length argv) in
  if 2 <=? argc then
    match argv !! 1%nat with
    | None => NullArgument
    | Some a1 =>
        let '(block_num, errno) := strtol a1 in
        if errno then Returned 1
        else if (block_num <? 1) || (BLOCK_NUM_MAX <? block_num) then Returned 1
        else
          match argv !! 2%nat with
          | None => NullArgument
          | Some a2 =>
              let '(num_data, errno) := strtol a2 in
              if errno then Returned 1
              else if negb (Z.rem num_data (LARGE_SIZE * block_num) =? 0)
                      && (INT_MAX <? num_data + LARGE_SIZE * block_num)
              then IntOverflow
              else Generating block_num (main_num_data num_data block_num)
          end
    end
  else Returned 1.

(** A word whose IEEE-754 single-precision reading lies in [1.0, 2.0). *)
Definition float_one_two (o : Z) : Prop := 0x3F800000 <= o < 0x40000000.

(* ================================================================= *)
(** * Proofs *)

(** ** Words *)

Section Words.

Lemma u32_bits_high z i : is_u32 z -> 32 <= i -> Z.testbit z i = false.
Proof.
  intros Hz Hi. rewrite <- (Z.mod_small z (2 ^ 32)) by exact Hz.
  apply Z.mod_pow2_bits_high. lia.
Qed.

Lemma u32_of_bits z :
  0 <= z -> (forall i, 32 <= i -> Z.testbit z i = false) -> is_u32 z.
Proof.
  intros Hz Hb.
  assert (E : z mod 2 ^ 32 = z).
  { apply Z.bits_inj'. intros i Hi.
    destruct (Z.lt_ge_cases i 32) as [Hlt | Hge].
    - apply Z.mod_pow2_bits_low. lia.
    - rewrite Z.mod_pow2_bits_high by lia. symmetry. apply Hb, Hge. }
  unfold is_u32. rewrite <- E. apply Z.mod_pos_bound. lia.
Qed.

Lemma lxor_u32 a b : is_u32 a -> is_u32 b -> is_u32 (Z.lxor a b).
Proof.
  intros Ha Hb. apply u32_of_bits.
  - apply Z.lxor_nonneg. unfold is_u32 in *. lia.
  - intros i Hi. rewrite Z.lxor_spec.
    rewrite (u32_bits_high a), (u32_bits_high b); auto.
Qed.

Lemma land_u32 a b : is_u32 a -> 0 <= b -> is_u32 (Z.land a b).
Proof.
  intros Ha Hb. apply u32_of_bits.
  - apply Z.land_nonneg. unfold is_u32 in *. lia.
  - intros i Hi. rewrite Z.land_spec, (u32_bits_high a); auto.
Qed.

Lemma shiftr_u32 a s : is_u32 a -> 0 <= s -> is_u32 (Z.shiftr a s).
Proof.
  intros Ha Hs. apply u32_of_bits.
  - apply Z.shiftr_nonneg. unfold is_u32 in *. lia.
  - intros i Hi. rewrite Z.shiftr_spec by lia. apply u32_bits_high; [exact Ha | lia].
Qed.

Lemma wrap32_u32 z : is_u32 (wrap32 z).
Proof. unfold is_u32, wrap32. apply Z.mod_pos_bound. lia. Qed.

Lemma wrap32_small z : is_u32 z -> wrap32 z = z.
Proof. intros Hz. unfold wrap32. apply Z.mod_small, Hz. Qed.

Lemma land_15 z : Z.land z 0x0f = z mod 16.
Proof. change 0x0f with (Z.ones 4). rewrite Z.land_ones by lia. reflexivity. Qed.

Lemma land_15_bounds z : 0 <= Z.land z 0x0f < 16.
Proof. rewrite land_15. apply Z.mod_pos_bound. lia. Qed.

Lemma nth_u32 (l : list Z) (i : nat) : Forall is_u32 l -> is_u32 (nth i l 0).
Proof.
  intros Hl. destruct (nth_lookup_or_length l i 0) as [E | E].
  - eapply Forall_lookup_1; eauto.
  - rewrite nth_overflow by lia. unfold is_u32. lia.
Qed.

End Words.

(** ** Loops and lanes *)

Section Loops.

Context {T S : Type}.
Implicit Types (f : T -> S -> res S) (l : list T) (s : S).

Lemma for_each_app f l1 l2 s :
  for_each f (l1 ++ l2) s = (s' ← for_each f l1 s; for_each f l2 s').
Proof.
  revert s. induction l1 as [|t l1 IH]; intros s; simpl; [reflexivity|].
  destruct (f t s) as [s1|e]; simpl; [apply IH | reflexivity].
Qed.

(** A loop invariant indexed by the number of iterations done. *)
Lemma for_each_inv (P : nat -> S -> Prop) f l s0 :
  P O s0 ->
  (forall k t s, l !! k = Some t -> P k s ->
                 exists s', f t s = Ok s' /\ P (Datatypes.S k) s') ->
  exists s', for_each f l s0 = Ok s' /\ P (length l) s'.
Proof.
  revert P s0. induction l as [|t l IH]; intros P s0 H0 Hstep; simpl.
  - eauto.
  - destruct (Hstep O t s0 eq_refl H0) as (s1 & E1 & H1). rewrite E1. simpl.
    apply (IH (fun k => P (Datatypes.S k))); [exact H1|].
    intros k t' s Hk HP. apply (Hstep (Datatypes.S k) t' s); assumption.
Qed.

Lemma for_each_fault f l1 t l2 s s1 e :
  for_each f l1 s = Ok s1 -> f t s1 = Fault e ->
  for_each f (l1 ++ t :: l2) s = Fault e.
Proof.
  intros H1 Ht. rewrite for_each_app, H1. simpl. rewrite Ht. reflexivity.
Qed.

End Loops.

Section Ranges.

Context {S : Type}.

Lemma for_range_inv (P : Z -> S -> Prop) n (f : Z -> S -> res S) s0 :
  0 <= n -> P 0 s0 ->
  (forall i s, 0 <= i < n -> P i s -> exists s', f i s = Ok s' /\ P (i + 1) s') ->
  exists s', for_range n f s0 = Ok s' /\ P n s'.
Proof.
  intros Hn H0 Hstep. unfold for_range.
  destruct (for_each_inv (fun k => P (Z.of_nat k)) f (seqZ 0 n) s0) as (s' & E & HP).
  - exact H0.
  - intros k t s Hk HP. apply lookup_seqZ in Hk as [-> Hlt].
    destruct (Hstep (Z.of_nat k) s) as (s' & E & HP'); [lia | exact HP |].
    exists s'. split; [exact E|].
    replace (Z.of_nat (Datatypes.S k)) with (Z.of_nat k + 1) by lia. exact HP'.
  - exists s'. split; [exact E|]. rewrite length_seqZ, Z2Nat.id in HP by lia. exact HP.
Qed.

(** With enough fuel the strided loop is a loop over its counter values. *)
Lemma for_step_unroll fuel step size i (f : Z -> S -> res S) s :
  0 < step ->
  (Z.to_nat ((size - i + step - 1) / step) <= fuel)%nat ->
  for_step fuel step size i f s =
  for_each f (map (fun k => i + k * step) (seqZ 0 ((size - i + step - 1) / step))) s.
Proof.
  intros Hstep. revert i s. induction fuel as [|fuel IH]; intros i s Hfuel.
  - destruct (Z.ltb_spec i size) as [Hlt | Hge].
    + exfalso.
      assert (1 <= (size - i + step - 1) / step) by (apply Z.div_le_lower_bound; lia).
      lia.
    + simpl. destruct (Z.ltb_spec i size); [lia|].
      rewrite seqZ_nil; [reflexivity|].
      assert ((size - i + step - 1) / step < 1) by (apply Z.div_lt_upper_bound; lia).
      lia.
  - simpl. destruct (Z.ltb_spec i size) as [Hlt | Hge].
    + assert (Hn : 1 <= (size - i + step - 1) / step)
        by (apply Z.div_le_lower_bound; lia).
      assert (Hn' : (size - (i + step) + step - 1) / step
                    = (size - i + step - 1) / step - 1).
      { replace (size - (i + step) + step - 1) with (size - i + step - 1 + (-1) * step) by lia.
        rewrite Z.div_add by lia. lia. }
      rewrite seqZ_cons by lia. simpl.
      replace (i + 0 * step) with i by lia.
      destruct (f i s) as [s1|e]; simpl; [|reflexivity].
      rewrite IH by lia. rewrite Hn'. f_equal.
      replace (Z.succ 0) with (1 + 0) by lia.
      rewrite <- (fmap_add_seqZ 1 0).
      change (@fmap list _ Z Z (Z.add 1)) with (@map Z Z (Z.add 1)).
      rewrite map_map. unfold Z.pred.
      replace ((size - i + step - 1) / step + -1)
        with ((size - i + step - 1) / step - 1) by lia.
      apply map_ext. intros k. lia.
    + rewrite seqZ_nil; [reflexivity|].
      assert ((size - i + step - 1) / step < 1) by (apply Z.div_lt_upper_bound; lia).
      lia.
Qed.

End Ranges.

(** ** Checked array accesses *)

Section Arrays.

Lemma in_bounds_true bound i : 0 <= i < bound -> in_bounds bound i = true.
Proof. intros H. unfold in_bounds. apply andb_true_intro. split; [apply Z.leb_le | apply Z.ltb_lt]; lia. Qed.

Lemma in_bounds_false bound i : ~ (0 <= i < bound) -> in_bounds bound i = false.
Proof.
  intros H. unfold in_bounds.
  destruct (Z.leb_spec 0 i), (Z.ltb_spec i bound); simpl; try reflexivity. lia.
Qed.

Lemma in_bounds_spec bound i : in_bounds bound i = true <-> 0 <= i < bound.
Proof.
  split; [|apply in_bounds_true]. unfold in_bounds. intros H.
  apply andb_prop in H as [H1 H2]. apply Z.leb_le in H1. apply Z.ltb_lt in H2. lia.
Qed.

Lemma ld_ok r bound a i :
  0 <= i < bound -> ld r bound a i = Ok (nth (Z.to_nat i) a 0).
Proof. intros H. unfold ld. rewrite in_bounds_true by exact H. reflexivity. Qed.

Lemma ld_fault r bound a i :
  ~ (0 <= i < bound) -> ld r bound a i = Fault (OutOfBounds r i).
Proof. intros H. unfold ld. rewrite in_bounds_false by exact H. reflexivity. Qed.

Lemma sto_ok r bound a i v :
  0 <= i < bound -> sto r bound a i v = Ok (<[Z.to_nat i := v]> a).
Proof. intros H. unfold sto. rewrite in_bounds_true by exact H. reflexivity. Qed.

Lemma sto_fault r bound a i v :
  ~ (0 <= i < bound) -> sto r bound a i v = Fault (OutOfBounds r i).
Proof. intros H. unfold sto. rewrite in_bounds_false by exact H. reflexivity. Qed.

Lemma nth_insert (l : list Z) (i j : nat) (v d : Z) :
  nth j (<[i := v]> l) d =
  if decide (i = j /\ (i < length l)%nat) then v else nth j l d.
Proof.
  rewrite !nth_lookup, list_lookup_insert.
  destruct (decide (i = j /\ (i < length l)%nat)); reflexivity.
Qed.

Lemma nth_insert_eq (l : list Z) (i : nat) (v d : Z) :
  (i < length l)%nat -> nth i (<[i := v]> l) d = v.
Proof. intros H. rewrite nth_insert. rewrite decide_True; [reflexivity | split; [reflexivity | exact H]]. Qed.

Lemma nth_insert_ne (l : list Z) (i j : nat) (v d : Z) :
  i <> j -> nth j (<[i := v]> l) d = nth j l d.
Proof. intros H. rewrite nth_insert. rewrite decide_False; [reflexivity | intros [? _]; contradiction]. Qed.

Lemma ld_params_ok params i p :
  0 <= i -> params !! Z.to_nat i = Some p -> ld_params params i = Ok p.
Proof.
  intros Hi Hp. unfold ld_params. rewrite in_bounds_true.
  - rewrite Hp. reflexivity.
  - apply lookup_lt_Some in Hp. lia.
Qed.

Lemma params_lookup (params : list mtgp32_params_fast_t) i :
  0 <= i < Z.of_nat (length params) -> exists p, params !! Z.to_nat i = Some p.
Proof. intros H. apply lookup_lt_is_Some_2. lia. Qed.

End Arrays.

(** ** What the loading functions leave in the device tables *)

Section Loading.

Variable params : list mtgp32_params_fast_t.
Variable block_num : Z.
Hypothesis block_num_nonneg : 0 <= block_num.
Hypothesis params_enough : block_num <= Z.of_nat (length params).

Lemma memcpy_symbol_read sym h bid :
  block_num <= BLOCK_NUM_MAX -> length h = Z.to_nat block_num ->
  0 <= bid < block_num ->
  exists sym', cudaMemcpyToSymbol sym h block_num = Ok sym' /\
               cread sym' bid = nth (Z.to_nat bid) h 0.
Proof.
  intros Hmax Hlen Hbid. unfold cudaMemcpyToSymbol.
  rewrite in_bounds_true by lia. eexists. split; [reflexivity|].
  unfold cread. rewrite take_ge by lia.
  rewrite app_nth1 by lia. reflexivity.
Qed.

Lemma memcpy_symbol_ok sym h :
  block_num <= BLOCK_NUM_MAX ->
  cudaMemcpyToSymbol sym h block_num
  = Ok (take (Z.to_nat block_num) h ++ drop (Z.to_nat block_num) sym).
Proof. intros Hmax. unfold cudaMemcpyToSymbol. rewrite in_bounds_true by lia. reflexivity. Qed.

Lemma make_constant_spec dev :
  block_num <= BLOCK_NUM_MAX ->
  exists dev', make_constant params block_num dev = Ok dev' /\
    tex_param_ref dev' = tex_param_ref dev /\
    tex_temper_ref dev' = tex_temper_ref dev /\
    tex_single_ref dev' = tex_single_ref dev /\
    forall bid p, 0 <= bid < block_num -> params !! Z.to_nat bid = Some p ->
      cread (pos_tbl dev') bid = wrap32 (pos p) /\
      cread (sh1_tbl dev') bid = wrap32 (sh1 p) /\
      cread (sh2_tbl dev') bid = wrap32 (sh2 p).
Proof.
  intros Hmax. unfold make_constant.
  edestruct (for_range_inv (constant_inv params block_num) block_num) as ([[hp h1] h2] & E & HP);
    [exact block_num_nonneg | | | rewrite E; clear E].
  - unfold constant_inv, malloc. simpl. rewrite !length_replicate.
    repeat split; try reflexivity; lia.
  - intros i [[hp h1] h2] Hi (Lp & L1 & L2 & Hv). simpl in Lp, L1, L2, Hv.
    destruct (params_lookup params i) as [p Hp]; [lia|].
    rewrite (ld_params_ok _ _ _ (proj1 Hi) Hp). simpl.
    rewrite !sto_ok by exact Hi. simpl.
    eexists. split; [reflexivity|].
    unfold constant_inv. simpl. rewrite !length_insert.
    repeat split; try assumption.
    all: destruct (decide (bid = i)) as [-> | Hne];
      [ rewrite nth_insert_eq by lia; congruence
      | rewrite nth_insert_ne by lia; apply (Hv bid p0); [lia | assumption] ].
  - destruct HP as (Lp & L1 & L2 & Hv). simpl in Lp, L1, L2, Hv. simpl.
    rewrite !memcpy_symbol_ok by exact Hmax. simpl.
    eexists. split; [reflexivity|]. simpl. repeat split; try reflexivity.
    all: unfold cread; rewrite take_ge by lia; rewrite app_nth1 by lia;
      apply (Hv bid p); assumption.
Qed.

Lemma texture_row i h :
  0 <= i < block_num ->
  texture_inv params block_num (fun bid _ => bid < i) h ->
  exists h',
    for_range TBL_SIZE
      (fun j '(h0, h1, h2) =>
         p ← ld_params params i;
         a ← ld Params TBL_SIZE (tbl p) j;
         h0 ← sto Host (block_num * TBL_SIZE) h0 (i * TBL_SIZE + j) a;
         b ← ld Params TBL_SIZE (tmp_tbl p) j;
         h1 ← sto Host (block_num * TBL_SIZE) h1 (i * TBL_SIZE + j) b;
         c ← ld Params TBL_SIZE (flt_tmp_tbl p) j;
         h2 ← sto Host (block_num * TBL_SIZE) h2 (i * TBL_SIZE + j) c;
         mret (h0, h1, h2)) h = Ok h' /\
    texture_inv params block_num (fun bid _ => bid < i + 1) h'.
Proof.
  intros Hi Hinv.
  edestruct (for_range_inv
               (fun j0 => texture_inv params block_num (fun bid j => bid < i \/ (bid = i /\ j < j0))) TBL_SIZE)
    as (h' & E & HP); [ unfold TBL_SIZE; lia | | | exists h'; split; [exact E|] ].
  - destruct Hinv as (L0 & L1 & L2 & Hv). repeat split; try assumption.
    all: apply (Hv bid j p); try assumption; lia.
  - intros j [[h0 h1] h2] Hj (L0 & L1 & L2 & Hv). simpl in L0, L1, L2, Hv.
    destruct (params_lookup params i) as [p Hp]; [lia|].
    rewrite (ld_params_ok _ _ _ (proj1 Hi) Hp). simpl.
    assert (Hix : 0 <= i * TBL_SIZE + j < block_num * TBL_SIZE) by (unfold TBL_SIZE in *; lia).
    rewrite !ld_ok by exact Hj. simpl.
    rewrite !sto_ok by exact Hix. simpl.
    eexists. split; [reflexivity|].
    unfold texture_inv. simpl. rewrite !length_insert.
    repeat split; try assumption.
    all: destruct (decide (bid = i /\ j0 = j)) as [[-> ->] | Hne];
      [ rewrite nth_insert_eq by lia; congruence
      | rewrite nth_insert_ne by (unfold TBL_SIZE in *; lia);
        apply (Hv bid j0 p0); try assumption; lia ].
  - destruct HP as (L0 & L1 & L2 & Hv). repeat split; try assumption.
    all: apply (Hv bid j p); try assumption; lia.
Qed.

Lemma make_texture_spec dev :
  exists dev', make_texture params block_num dev = Ok dev' /\
    pos_tbl dev' = pos_tbl dev /\ sh1_tbl dev' = sh1_tbl dev /\
    sh2_tbl dev' = sh2_tbl dev /\
    forall bid j p, 0 <= bid < block_num -> 0 <= j < TBL_SIZE ->
      params !! Z.to_nat bid = Some p ->
      tex1Dfetch (tex_param_ref dev') (bid * 16 + j) = nth (Z.to_nat j) (tbl p) 0 /\
      tex1Dfetch (tex_temper_ref dev') (bid * 16 + j) = nth (Z.to_nat j) (tmp_tbl p) 0 /\
      tex1Dfetch (tex_single_ref dev') (bid * 16 + j) = nth (Z.to_nat j) (flt_tmp_tbl p) 0.
Proof.
  unfold make_texture.
  edestruct (for_range_inv (fun i => texture_inv params block_num (fun bid _ => bid < i)) block_num)
    as ([[h0 h1] h2] & E & HP); [exact block_num_nonneg | | | rewrite E; clear E].
  - unfold texture_inv, malloc. simpl. rewrite !length_replicate.
    repeat split; try reflexivity; lia.
  - intros i h Hi Hinv. apply texture_row; assumption.
  - simpl. eexists. split; [reflexivity|]. simpl. repeat split; try reflexivity.
    all: destruct HP as (_ & _ & _ & Hv); simpl in Hv;
      unfold tex1Dfetch; destruct (Z.ltb_spec (bid * 16 + j) 0); [unfold TBL_SIZE in *; lia|];
      apply (Hv bid j p); try assumption; lia.
Qed.

(** The device after the two loading calls of [main]. *)
Lemma load_device_spec :
  block_num <= BLOCK_NUM_MAX ->
  exists dev, load_device params block_num = Ok dev /\
    forall bid p, 0 <= bid < block_num -> params !! Z.to_nat bid = Some p ->
      cread (pos_tbl dev) bid = wrap32 (pos p) /\
      cread (sh1_tbl dev) bid = wrap32 (sh1 p) /\
      cread (sh2_tbl dev) bid = wrap32 (sh2 p) /\
      forall j, 0 <= j < TBL_SIZE ->
        tex1Dfetch (tex_param_ref dev) (bid * 16 + j) = nth (Z.to_nat j) (tbl p) 0 /\
        tex1Dfetch (tex_temper_ref dev) (bid * 16 + j) = nth (Z.to_nat j) (tmp_tbl p) 0 /\
        tex1Dfetch (tex_single_ref dev) (bid * 16 + j) = nth (Z.to_nat j) (flt_tmp_tbl p) 0.
Proof.
  intros Hmax. unfold load_device.
  destruct (make_constant_spec device0 Hmax) as (dev1 & E1 & _ & _ & _ & Hc).
  rewrite E1. simpl.
  destruct (make_texture_spec dev1) as (dev & E2 & Ep & E1' & E2' & Ht).
  exists dev. split; [exact E2|].
  intros bid p Hbid Hp. rewrite Ep, E1', E2'.
  destruct (Hc bid p Hbid Hp) as (? & ? & ?).
  repeat split; try assumption; apply (Ht bid j p); assumption.
Qed.

End Loading.

(** ** The recurrence and the tempering functions *)

Section DeviceFunctions.

Variable params : list mtgp32_params_fast_t.
Variables (block_num : Z) (dev : device) (bid : Z) (p : mtgp32_params_fast_t).
Hypothesis block_num_range : 0 <= block_num <= BLOCK_NUM_MAX.
Hypothesis params_enough : block_num <= Z.of_nat (length params).
Hypothesis loaded : load_device params block_num = Ok dev.
Hypothesis bid_range : 0 <= bid < block_num.
Hypothesis params_bid : params !! Z.to_nat bid = Some p.

Lemma loaded_tables :
  cread (pos_tbl dev) bid = wrap32 (pos p) /\
  cread (sh1_tbl dev) bid = wrap32 (sh1 p) /\
  cread (sh2_tbl dev) bid = wrap32 (sh2 p) /\
  forall j, 0 <= j < TBL_SIZE ->
    tex1Dfetch (tex_param_ref dev) (bid * 16 + j) = nth (Z.to_nat j) (tbl p) 0 /\
    tex1Dfetch (tex_temper_ref dev) (bid * 16 + j) = nth (Z.to_nat j) (tmp_tbl p) 0 /\
    tex1Dfetch (tex_single_ref dev) (bid * 16 + j) = nth (Z.to_nat j) (flt_tmp_tbl p) 0.
Proof.
  destruct (load_device_spec params block_num (proj1 block_num_range) params_enough
              (proj2 block_num_range)) as (dev' & E & H).
  rewrite loaded in E. injection E as <-. apply H; assumption.
Qed.

Lemma para_rec_next X1 X2 Y :
  0 <= sh1 p < 32 -> 0 <= sh2 p < 32 ->
  para_rec dev X1 X2 Y bid = spec_next p X1 X2 Y.
Proof.
  intros H1 H2. destruct loaded_tables as (_ & E1 & E2 & Ht).
  unfold para_rec, spec_next, shl32, shr32, mask.
  rewrite E1, E2.
  rewrite (wrap32_small (sh1 p)), (wrap32_small (sh2 p)) by (unfold is_u32; lia).
  cbv zeta.
  set (y := Z.lxor _ (Z.shiftr Y (sh2 p))).
  destruct (Ht (Z.land y 0x0f)) as (-> & _ & _); [apply land_15_bounds|].
  rewrite land_15. unfold wrap32. reflexivity.
Qed.

Lemma para_rec_u32 X1 X2 Y :
  0 <= sh1 p < 32 -> 0 <= sh2 p < 32 -> Forall is_u32 (tbl p) ->
  is_u32 X1 -> is_u32 X2 -> is_u32 Y ->
  is_u32 (para_rec dev X1 X2 Y bid).
Proof.
  intros H1 H2 Ht HX1 HX2 HY. rewrite para_rec_next by assumption.
  unfold spec_next. cbv zeta.
  assert (HX : is_u32 (Z.lxor (Z.land X1 4286578688) X2))
    by (apply lxor_u32; [apply land_u32; [assumption | lia] | assumption]).
  apply lxor_u32; [|apply nth_u32, Ht].
  apply lxor_u32; [|apply shiftr_u32; [assumption | lia]].
  apply lxor_u32; [exact HX|]. apply wrap32_u32.
Qed.

Lemma reduce_bounds T : 0 <= Z.land (spec_reduce T) 0x0f < TBL_SIZE.
Proof. apply land_15_bounds. Qed.

Lemma temper_temperInt V T : temper dev V T bid = spec_temperInt p V T.
Proof.
  destruct loaded_tables as (_ & _ & _ & Ht).
  unfold temper, spec_temperInt, shr32. cbv zeta.
  change (Z.lxor (Z.lxor T (Z.shiftr T 16)) (Z.shiftr (Z.lxor T (Z.shiftr T 16)) 8))
    with (spec_reduce T).
  destruct (Ht (Z.land (spec_reduce T) 0x0f)) as (_ & -> & _); [apply reduce_bounds|].
  rewrite land_15. reflexivity.
Qed.

Lemma temper_single_temperFloat V T :
  temper_single dev V T bid = spec_temperFloat p V T.
Proof.
  destruct loaded_tables as (_ & _ & _ & Ht).
  unfold temper_single, spec_temperFloat, shr32. cbv zeta.
  change (Z.lxor (Z.lxor T (Z.shiftr T 16)) (Z.shiftr (Z.lxor T (Z.shiftr T 16)) 8))
    with (spec_reduce T).
  destruct (Ht (Z.land (spec_reduce T) 0x0f)) as (_ & _ & ->); [apply reduce_bounds|].
  rewrite land_15. reflexivity.
Qed.

End DeviceFunctions.

(** The word [(V >> 9) ^ e] keeps the upper nine bits of [e]. *)
Lemma float_word_range V e :
  is_u32 V -> exponent_one e ->
  0x3F800000 <= Z.lxor (Z.shiftr V 9) e < 0x40000000.
Proof.
  intros HV He. unfold exponent_one in He.
  assert (Hr : Z.shiftr (Z.lxor (Z.shiftr V 9) e) 23 = 127).
  { rewrite Z.shiftr_lxor, Z.shiftr_shiftr by lia. rewrite He.
    replace (Z.shiftr V (9 + 23)) with 0; [reflexivity|].
    symmetry. rewrite Z.shiftr_div_pow2 by lia. apply Z.div_small. exact HV. }
  rewrite Z.shiftr_div_pow2 in Hr by lia.
  assert (0 < 2 ^ 23) by lia.
  pose proof (Z.div_mod (Z.lxor (Z.shiftr V 9) e) (2 ^ 23) ltac:(lia)) as Hd.
  pose proof (Z.mod_pos_bound (Z.lxor (Z.shiftr V 9) e) (2 ^ 23) ltac:(lia)) as Hm.
  rewrite Hr in Hd. lia.
Qed.

Lemma example_loaded : load_device [example_params] 1 = Ok example_device.
Proof. vm_compute. reflexivity. Qed.

Lemma example_tables_u32 :
  Forall is_u32 (tbl example_params) /\ Forall is_u32 (tmp_tbl example_params).
Proof.
  split; simpl; repeat (constructor; [unfold is_u32; lia|]); constructor.
Qed.

Lemma example_exponents : Forall exponent_one (flt_tmp_tbl example_params).
Proof. repeat (constructor; [reflexivity|]). constructor. Qed.

(** C3.  On a device loaded by [make_constant] and [make_texture],
    [para_rec] in block [bid] returns, for all 32-bit [X1], [X2], [Y], the
    word of the specification's [next] on the parameter set of that block:
    [x = (X1 & 0xff800000) ^ X2], [x ^= x << sh1], [y = x ^ (Y >> sh2)], and
    the result is [y ^ paramTable[y mod 16]], the table entry being selected
    by the low four bits of [y].  The result is again a 32-bit word. *)
Theorem para_rec_computes_next
    (params : list mtgp32_params_fast_t) (block_num : Z) (dev : device)
    (bid : Z) (p : mtgp32_params_fast_t) (X1 X2 Y : Z) :
  0 <= block_num <= BLOCK_NUM_MAX ->
  block_num <= Z.of_nat (length params) ->
  load_device params block_num = Ok dev ->
  0 <= bid < block_num ->
  params !! Z.to_nat bid = Some p ->
  1 <= sh1 p <= 31 -> 1 <= sh2 p <= 31 -> Forall is_u32 (tbl p) ->
  is_u32 X1 -> is_u32 X2 -> is_u32 Y ->
  para_rec dev X1 X2 Y bid = spec_next p X1 X2 Y /\
  is_u32 (para_rec dev X1 X2 Y bid).
Proof.
  intros Hb Hp Hl Hbid Hpb H1 H2 Ht HX1 HX2 HY. split.
  - eapply para_rec_next; eauto; lia.
  - eapply para_rec_u32; eauto; lia.
Qed.

Lemma para_rec_computes_next_witness :
  para_rec example_device 0xdeadbeef 0x01234567 0x89abcdef 0
  = spec_next example_params 0xdeadbeef 0x01234567 0x89abcdef /\
  is_u32 (para_rec example_device 0xdeadbeef 0x01234567 0x89abcdef 0).
Proof.
  apply (para_rec_computes_next [example_params] 1 example_device 0 example_params).
  - unfold BLOCK_NUM_MAX. lia.
  - simpl. lia.
  - exact example_loaded.
  - lia.
  - reflexivity.
  - simpl. lia.
  - simpl. lia.
  - exact (proj1 example_tables_u32).
  - unfold is_u32. lia.
  - unfold is_u32. lia.
  - unfold is_u32. lia.
Defined.

(** C5.  On a loaded device, [temper] returns [V ^ temperTable[t mod 16]]
    where [t] is [T] after [t ^= t >> 16; t ^= t >> 8], for all 32-bit [V]
    and [T], and the result is a 32-bit word. *)
Theorem temper_computes_temperInt
    (params : list mtgp32_params_fast_t) (block_num : Z) (dev : device)
    (bid : Z) (p : mtgp32_params_fast_t) (V T : Z) :
  0 <= block_num <= BLOCK_NUM_MAX ->
  block_num <= Z.of_nat (length params) ->
  load_device params block_num = Ok dev ->
  0 <= bid < block_num ->
  params !! Z.to_nat bid = Some p ->
  Forall is_u32 (tmp_tbl p) ->
  is_u32 V -> is_u32 T ->
  temper dev V T bid
  = Z.lxor V (nth (Z.to_nat (Z.lxor (Z.lxor T (Z.shiftr T 16))
                                    (Z.shiftr (Z.lxor T (Z.shiftr T 16)) 8) mod 16))
                  (tmp_tbl p) 0) /\
  temper dev V T bid = spec_temperInt p V T /\
  is_u32 (temper dev V T bid).
Proof.
  intros Hb Hp Hl Hbid Hpb Ht HV HT.
  assert (E : temper dev V T bid = spec_temperInt p V T)
    by (eapply temper_temperInt; eauto).
  split; [exact E | split; [exact E|]].
  rewrite E. unfold spec_temperInt. apply lxor_u32; [exact HV | apply nth_u32, Ht].
Qed.

Lemma temper_computes_temperInt_witness :
  temper example_device 0xdeadbeef 0x89abcdef 0
  = Z.lxor 0xdeadbeef
      (nth (Z.to_nat (Z.lxor (Z.lxor 0x89abcdef (Z.shiftr 0x89abcdef 16))
                        (Z.shiftr (Z.lxor 0x89abcdef (Z.shiftr 0x89abcdef 16)) 8) mod 16))
           (tmp_tbl example_params) 0) /\
  temper example_device 0xdeadbeef 0x89abcdef 0
  = spec_temperInt example_params 0xdeadbeef 0x89abcdef /\
  is_u32 (temper example_device 0xdeadbeef 0x89abcdef 0).
Proof.
  apply (temper_computes_temperInt [example_params] 1 example_device 0 example_params).
  - unfold BLOCK_NUM_MAX. lia.
  - simpl. lia.
  - exact example_loaded.
  - lia.
  - reflexivity.
  - exact (proj2 example_tables_u32).
  - unfold is_u32. lia.
  - unfold is_u32. lia.
Defined.

(** C6.  On a loaded device, [temper_single] returns
    [(V >> 9) ^ floatTemperTable[t mod 16]] with the reduction of [temper];
    when the sixteen entries of the table all carry the upper nine bits of
    [0x3F800000], the result lies in [0x3F800000, 0x40000000), the words
    whose IEEE-754 single-precision reading lies in [1.0, 2.0). *)
Theorem temper_single_computes_temperFloat
    (params : list mtgp32_params_fast_t) (block_num : Z) (dev : device)
    (bid : Z) (p : mtgp32_params_fast_t) (V T : Z) :
  0 <= block_num <= BLOCK_NUM_MAX ->
  block_num <= Z.of_nat (length params) ->
  load_device params block_num = Ok dev ->
  0 <= bid < block_num ->
  params !! Z.to_nat bid = Some p ->
  is_u32 V -> is_u32 T ->
  temper_single dev V T bid = spec_temperFloat p V T /\
  (length (flt_tmp_tbl p) = 16%nat -> Forall exponent_one (flt_tmp_tbl p) ->
   0x3F800000 <= temper_single dev V T bid < 0x40000000).
Proof.
  intros Hb Hp Hl Hbid Hpb HV HT.
  assert (E : temper_single dev V T bid = spec_temperFloat p V T)
    by (eapply temper_single_temperFloat; eauto).
  split; [exact E|]. intros Hlen Hexp. rewrite E. unfold spec_temperFloat.
  apply float_word_range; [exact HV|].
  assert (Hj : (Z.to_nat (spec_reduce T mod 16) < length (flt_tmp_tbl p))%nat).
  { pose proof (Z.mod_pos_bound (spec_reduce T) 16 ltac:(lia)). lia. }
  destruct (nth_lookup_or_length (flt_tmp_tbl p) (Z.to_nat (spec_reduce T mod 16)) 0)
    as [Hn | Hn]; [|lia].
  eapply Forall_lookup_1; eauto.
Qed.

Lemma temper_single_computes_temperFloat_witness :
  temper_single example_device 0xdeadbeef 0x89abcdef 0
  = spec_temperFloat example_params 0xdeadbeef 0x89abcdef /\
  (length (flt_tmp_tbl example_params) = 16%nat ->
   Forall exponent_one (flt_tmp_tbl example_params) ->
   0x3F800000 <= temper_single example_device 0xdeadbeef 0x89abcdef 0 < 0x40000000).
Proof.
  apply (temper_single_computes_temperFloat [example_params] 1 example_device 0
           example_params).
  - unfold BLOCK_NUM_MAX. lia.
  - simpl. lia.
  - exact example_loaded.
  - lia.
  - reflexivity.
  - unfold is_u32. lia.
  - unfold is_u32. lia.
Defined.

(** ** Loading the parameter sets *)

(** C8, as the specification states it, fails: [bad_params] has [pos = 0],
    [sh1 = 0] and [sh2 = 40], all outside the ranges of the specification,
    and both loading functions accept it and put these values into the
    tables of block 0. *)
Lemma load_device_accepts_bad_params :
  ~ valid_params bad_params /\
  exists dev, load_device [bad_params] 1 = Ok dev /\
              cread (pos_tbl dev) 0 = 0 /\
              cread (sh1_tbl dev) 0 = 0 /\
              cread (sh2_tbl dev) 0 = 40.
Proof.
  split.
  - unfold valid_params, bad_params. simpl. lia.
  - eexists. split; [vm_compute; reflexivity|]. vm_compute. auto.
Qed.

(** C8, amended.  [make_constant] and [make_texture] validate nothing: for
    any array of at least [block_num] parameter sets, [block_num] at most
    [BLOCK_NUM_MAX], loading succeeds; block [bid] finds in the constant
    tables the [pos], [sh1] and [sh2] of [params[bid]] reduced to 32 bits and
    in the three textures, at [bid * 16 + j], the entries [j] of the three
    tables of [params[bid]]; and what block [bid] finds depends on
    [params[bid]] only. *)
Theorem load_device_copies_verbatim
    (params params' : list mtgp32_params_fast_t) (block_num : Z) :
  0 <= block_num <= BLOCK_NUM_MAX ->
  block_num <= Z.of_nat (length params) ->
  block_num <= Z.of_nat (length params') ->
  exists dev dev',
    load_device params block_num = Ok dev /\
    load_device params' block_num = Ok dev' /\
    (forall bid p, 0 <= bid < block_num -> params !! Z.to_nat bid = Some p ->
       cread (pos_tbl dev) bid = wrap32 (pos p) /\
       cread (sh1_tbl dev) bid = wrap32 (sh1 p) /\
       cread (sh2_tbl dev) bid = wrap32 (sh2 p) /\
       forall j, 0 <= j < TBL_SIZE ->
         tex1Dfetch (tex_param_ref dev) (bid * 16 + j) = nth (Z.to_nat j) (tbl p) 0 /\
         tex1Dfetch (tex_temper_ref dev) (bid * 16 + j) = nth (Z.to_nat j) (tmp_tbl p) 0 /\
         tex1Dfetch (tex_single_ref dev) (bid * 16 + j)
         = nth (Z.to_nat j) (flt_tmp_tbl p) 0) /\
    (forall bid, 0 <= bid < block_num ->
       params !! Z.to_nat bid = params' !! Z.to_nat bid ->
       cread (pos_tbl dev) bid = cread (pos_tbl dev') bid /\
       cread (sh1_tbl dev) bid = cread (sh1_tbl dev') bid /\
       cread (sh2_tbl dev) bid = cread (sh2_tbl dev') bid /\
       forall j, 0 <= j < TBL_SIZE ->
         tex1Dfetch (tex_param_ref dev) (bid * 16 + j)
         = tex1Dfetch (tex_param_ref dev') (bid * 16 + j) /\
         tex1Dfetch (tex_temper_ref dev) (bid * 16 + j)
         = tex1Dfetch (tex_temper_ref dev') (bid * 16 + j) /\
         tex1Dfetch (tex_single_ref dev) (bid * 16 + j)
         = tex1Dfetch (tex_single_ref dev') (bid * 16 + j)).
Proof.
  intros [Hn Hmax] Hlen Hlen'.
  destruct (load_device_spec params block_num Hn Hlen Hmax) as (dev & E & H).
  destruct (load_device_spec params' block_num Hn Hlen' Hmax) as (dev' & E' & H').
  exists dev, dev'. split; [exact E|]. split; [exact E'|]. split; [exact H|].
  intros bid Hbid Heq.
  destruct (params_lookup params bid) as [p Hp]; [lia|].
  assert (Hp' : params' !! Z.to_nat bid = Some p) by congruence.
  destruct (H bid p Hbid Hp) as (A & B & C & D).
  destruct (H' bid p Hbid Hp') as (A' & B' & C' & D').
  split; [congruence|]. split; [congruence|]. split; [congruence|].
  intros j Hj. destruct (D j Hj) as (D1 & D2 & D3).
  destruct (D' j Hj) as (D1' & D2' & D3').
  split; [congruence|]. split; congruence.
Qed.

Lemma load_device_copies_verbatim_witness :
  exists dev dev',
    load_device [example_params; bad_params] 2 = Ok dev /\
    load_device [example_params; example_params] 2 = Ok dev' /\
    (forall bid p, 0 <= bid < 2 ->
       [example_params; bad_params] !! Z.to_nat bid = Some p ->
       cread (pos_tbl dev) bid = wrap32 (pos p) /\
       cread (sh1_tbl dev) bid = wrap32 (sh1 p) /\
       cread (sh2_tbl dev) bid = wrap32 (sh2 p) /\
       forall j, 0 <= j < TBL_SIZE ->
         tex1Dfetch (tex_param_ref dev) (bid * 16 + j) = nth (Z.to_nat j) (tbl p) 0 /\
         tex1Dfetch (tex_temper_ref dev) (bid * 16 + j) = nth (Z.to_nat j) (tmp_tbl p) 0 /\
         tex1Dfetch (tex_single_ref dev) (bid * 16 + j)
         = nth (Z.to_nat j) (flt_tmp_tbl p) 0) /\
    (forall bid, 0 <= bid < 2 ->
       [example_params; bad_params] !! Z.to_nat bid
       = [example_params; example_params] !! Z.to_nat bid ->
       cread (pos_tbl dev) bid = cread (pos_tbl dev') bid /\
       cread (sh1_tbl dev) bid = cread (sh1_tbl dev') bid /\
       cread (sh2_tbl dev) bid = cread (sh2_tbl dev') bid /\
       forall j, 0 <= j < TBL_SIZE ->
         tex1Dfetch (tex_param_ref dev) (bid * 16 + j)
         = tex1Dfetch (tex_param_ref dev') (bid * 16 + j) /\
         tex1Dfetch (tex_temper_ref dev) (bid * 16 + j)
         = tex1Dfetch (tex_temper_ref dev') (bid * 16 + j) /\
         tex1Dfetch (tex_single_ref dev) (bid * 16 + j)
         = tex1Dfetch (tex_single_ref dev') (bid * 16 + j)).
Proof.
  apply (load_device_copies_verbatim [example_params; bad_params]
           [example_params; example_params] 2).
  - unfold BLOCK_NUM_MAX. lia.
  - simpl. lia.
  - simpl. lia.
Defined.

(** ** Counts that are not a multiple of the batch size *)

Lemma kernel_fuel (size : Z) :
  (Z.to_nat ((size - 0 + LARGE_SIZE - 1) / LARGE_SIZE) <= Z.to_nat size)%nat.
Proof. unfold LARGE_SIZE, THREAD_NUM. Z.to_euclidean_division_equations. lia. Qed.

(** The main loop of the kernels is a loop over [batch_list size]; the fuel
    [Z.to_nat size] never runs out. *)
Lemma kernel_loop_unroll {S : Type} (f : Z -> S -> res S) (s : S) (size : Z) :
  for_step (Z.to_nat size) LARGE_SIZE size 0 f s = for_each f (batch_list size) s.
Proof.
  rewrite for_step_unroll; [|unfold LARGE_SIZE, THREAD_NUM; lia | apply kernel_fuel].
  unfold batch_list. replace (size - 0 + LARGE_SIZE - 1) with (size + LARGE_SIZE - 1) by lia.
  f_equal.
Qed.

Lemma main_num_data_multiple (num_data block_num : Z) :
  0 <= num_data -> 1 <= block_num ->
  main_num_data num_data block_num mod (LARGE_SIZE * block_num) = 0 /\
  num_data <= main_num_data num_data block_num < num_data + LARGE_SIZE * block_num.
Proof.
  intros Hn Hb. unfold main_num_data. cbv zeta.
  set (u := LARGE_SIZE * block_num).
  assert (Hu : 0 < u) by (unfold u, LARGE_SIZE, THREAD_NUM; lia).
  rewrite Z.rem_mod_nonneg by lia.
  pose proof (Z.mod_pos_bound num_data u Hu) as Hm.
  destruct (Z.eqb_spec (num_data mod u) 0) as [E | E]; simpl.
  - split; [exact E | lia].
  - split; [|lia].
    rewrite (Z.div_mod num_data u) at 1 by lia.
    replace (u * (num_data / u) + num_data mod u + u - num_data mod u)
      with ((num_data / u + 1) * u) by lia.
    apply Z.mod_mul. lia.
Qed.

(** ** A phase on all lanes *)

Section Lanes.

Lemma res_bind_ok {A B : Type} (a : A) (f : A -> res B) : (Ok a ≫= f) = f a.
Proof. reflexivity. Qed.

Lemma res_bind_fault {A B : Type} (e : fault) (f : A -> res B) :
  (Fault e ≫= f) = Fault e.
Proof. reflexivity. Qed.

Lemma elem_of_lanes tid : tid ∈ lanes <-> 0 <= tid < THREAD_NUM.
Proof. unfold lanes. rewrite elem_of_seqZ. lia. Qed.

Lemma length_lanes : length lanes = 256%nat.
Proof. reflexivity. Qed.

Lemma mapM_ok {A B : Type} (f : A -> res B) (g : A -> B) (l : list A) :
  (forall x, x ∈ l -> f x = Ok (g x)) -> mapM f l = Ok (map g l).
Proof.
  induction l as [|x l IH]; intros H; simpl; [reflexivity|].
  rewrite (H x) by (apply elem_of_cons; left; reflexivity). simpl.
  rewrite IH; [reflexivity|].
  intros y Hy. apply H. apply elem_of_cons. right. exact Hy.
Qed.

Lemma mapM_fault {A B : Type} (f : A -> res B) (g : A -> B) (l1 : list A) x l2 e :
  (forall y, y ∈ l1 -> f y = Ok (g y)) -> f x = Fault e ->
  mapM f (l1 ++ x :: l2) = Fault e.
Proof.
  induction l1 as [|y l1 IH]; intros H Hx; simpl.
  - rewrite Hx. reflexivity.
  - rewrite (H y) by (apply elem_of_cons; left; reflexivity). simpl.
    rewrite IH; [reflexivity | | exact Hx].
    intros z Hz. apply H. apply elem_of_cons. right. exact Hz.
Qed.

Lemma for_each_sto r bound (ix : Z -> Z) (tvs : list (Z * Z)) (a : list Z) :
  (forall tv, tv ∈ tvs -> 0 <= ix tv.1 < bound) ->
  for_each (fun tv st => sto r bound st (ix tv.1) tv.2) tvs a = Ok (scatter ix tvs a).
Proof.
  revert a. induction tvs as [|tv tvs IH]; intros a H; simpl; [reflexivity|].
  rewrite sto_ok by (apply H, elem_of_cons; left; reflexivity). simpl.
  apply IH. intros tv' Htv'. apply H, elem_of_cons. right. exact Htv'.
Qed.

Lemma length_scatter ix tvs a : length (scatter ix tvs a) = length a.
Proof.
  revert a. induction tvs as [|tv tvs IH]; intros a; simpl; [reflexivity|].
  unfold scatter in *. simpl. rewrite IH, length_insert. reflexivity.
Qed.

Lemma elem_of_zip_lanes (tv : Z * Z) vs : tv ∈ zip lanes vs -> 0 <= tv.1 < THREAD_NUM.
Proof.
  intros H. apply elem_of_lanes. destruct tv as [t v].
  apply (elem_of_zip_l _ _ _ _ H).
Qed.

(** Stores at consecutive slots replace a segment. *)
Lemma scatter_segment ix (base : Z) (vs : list Z) :
  forall (m : Z) (pre mid post : list Z),
    0 <= m -> 0 <= base ->
    (forall t, m <= t < m + Z.of_nat (length vs) -> ix t = base + t) ->
    Z.of_nat (length pre) = base + m -> length mid = length vs ->
    scatter ix (zip (seqZ m (Z.of_nat (length vs))) vs) (pre ++ mid ++ post)
    = pre ++ vs ++ post.
Proof.
  induction vs as [|v vs IH]; intros m pre mid post Hm Hb Hix Hpre Hmid.
  - destruct mid; [reflexivity | discriminate].
  - destruct mid as [|x mid]; [discriminate|].
    simpl length. rewrite seqZ_cons by lia.
    replace (Z.pred (Z.of_nat (Datatypes.S (length vs)))) with (Z.of_nat (length vs)) by lia.
    unfold scatter. simpl.
    rewrite (Hix m) by (simpl length; lia).
    replace (Z.to_nat (base + m)) with (length pre + 0)%nat by lia.
    rewrite insert_app_r. simpl.
    replace (pre ++ v :: mid ++ post) with ((pre ++ [v]) ++ mid ++ post)
      by (rewrite <- app_assoc; reflexivity).
    change (scatter ix (zip (seqZ (Z.succ m) (Z.of_nat (length vs))) vs)
              ((pre ++ [v]) ++ mid ++ post) = pre ++ v :: vs ++ post).
    rewrite (IH (Z.succ m) (pre ++ [v]) mid post).
    + rewrite <- app_assoc. reflexivity.
    + lia.
    + exact Hb.
    + intros t Ht. apply Hix. simpl length. lia.
    + rewrite length_app. simpl. lia.
    + simpl in Hmid. lia.
Qed.

Lemma scatter_lanes ix (base : Z) (vs a : list Z) :
  0 <= base -> length vs = 256%nat ->
  (forall t, 0 <= t < THREAD_NUM -> ix t = base + t) ->
  base + THREAD_NUM <= Z.of_nat (length a) ->
  scatter ix (zip lanes vs) a = splice base vs a.
Proof.
  intros Hb Hvs Hix Hlen. unfold lanes, splice.
  replace THREAD_NUM with (Z.of_nat (length vs)) by (rewrite Hvs; reflexivity).
  rewrite <- (scatter_segment ix base vs 0 (take (Z.to_nat base) a)
                (take (length vs) (drop (Z.to_nat base) a))
                (drop (Z.to_nat base + length vs) a)).
  - f_equal. rewrite <- drop_drop, !take_drop. reflexivity.
  - lia.
  - exact Hb.
  - intros t Ht. apply Hix. rewrite Hvs in Ht. unfold THREAD_NUM. lia.
  - rewrite length_take. unfold THREAD_NUM in Hlen. lia.
  - rewrite length_take, length_drop. unfold THREAD_NUM in Hlen. lia.
Qed.

Lemma length_splice a os d :
  0 <= a -> a + Z.of_nat (length os) <= Z.of_nat (length d) ->
  length (splice a os d) = length d.
Proof.
  intros Ha H. unfold splice. rewrite !length_app, length_take, length_drop. lia.
Qed.

Lemma nth_splice a os d (j : nat) :
  0 <= a -> a + Z.of_nat (length os) <= Z.of_nat (length d) ->
  nth j (splice a os d) 0 =
  if decide (a <= Z.of_nat j < a + Z.of_nat (length os))
  then nth (j - Z.to_nat a) os 0 else nth j d 0.
Proof.
  intros Ha H. unfold splice.
  assert (Lt : length (take (Z.to_nat a) d) = Z.to_nat a) by (rewrite length_take; lia).
  destruct (decide (a <= Z.of_nat j < a + Z.of_nat (length os))) as [Hin | Hout].
  - rewrite app_nth2 by lia. rewrite Lt. rewrite app_nth1 by lia. reflexivity.
  - destruct (Z.lt_ge_cases (Z.of_nat j) a) as [Hlt | Hge].
    + rewrite app_nth1 by lia. rewrite !nth_lookup, lookup_take_lt by lia. reflexivity.
    + rewrite app_nth2 by lia. rewrite Lt. rewrite app_nth2 by lia.
      rewrite !nth_lookup, lookup_drop. do 2 f_equal. lia.
Qed.

End Lanes.

Section Phase.

Variable tmp : device -> Z -> Z -> Z -> Z.
Variables (dev : device) (bid : Z).

Lemma rec_lane_ok ph status tid :
  sh_ok (rd_x1 ph tid) -> sh_ok (rd_x2 ph tid) -> sh_ok (rd_y ph tid) ->
  rec_lane dev bid ph status tid = Ok (rec_val dev bid ph status tid).
Proof.
  intros H1 H2 H3. unfold rec_lane, rec_val.
  rewrite !ld_ok by assumption. reflexivity.
Qed.

(** A phase whose subscripts are all inside the arrays runs without a
    fault and does what its unchecked form says. *)
Lemma run_phase_ok ph status d_data :
  (forall tid, 0 <= tid < THREAD_NUM ->
               phase_in_bounds ph tid /\ 0 <= out ph tid < Z.of_nat (length d_data)) ->
  run_phase tmp dev bid ph (status, d_data)
  = Ok (phase_status dev bid ph status, phase_data tmp dev bid ph status d_data).
Proof.
  intros H. unfold run_phase.
  rewrite (mapM_ok _ (rec_val dev bid ph status)).
  2:{ intros tid Ht. apply elem_of_lanes in Ht.
      destruct (H tid Ht) as [(H1 & H2 & H3 & _) _]. apply rec_lane_ok; assumption. }
  rewrite res_bind_ok. fold (phase_words dev bid ph status).
  rewrite (for_each_sto Shared LARGE_SIZE (wr ph)).
  2:{ intros tv Ht. apply elem_of_zip_lanes in Ht.
      destruct (H tv.1 Ht) as [(_ & _ & _ & H4 & _) _]. exact H4. }
  rewrite res_bind_ok. fold (phase_status dev bid ph status).
  rewrite (mapM_ok _ (fun tr => tmp dev tr.2
             (nth (Z.to_nat (rd_t ph tr.1)) (phase_status dev bid ph status) 0) bid)).
  2:{ intros tv Ht. apply elem_of_zip_lanes in Ht.
      destruct (H tv.1 Ht) as [(_ & _ & _ & _ & H5) _].
      unfold temper_lane. rewrite ld_ok by exact H5. reflexivity. }
  rewrite res_bind_ok. fold (phase_outputs tmp dev bid ph status).
  rewrite (for_each_sto DData _ (out ph)).
  2:{ intros tv Ht. apply elem_of_zip_lanes in Ht.
      destruct (H tv.1 Ht) as [_ H6]. exact H6. }
  rewrite res_bind_ok. reflexivity.
Qed.

(** A phase faults at the first lane whose recursion reads outside the
    shared buffer. *)
Lemma run_phase_fault ph status d_data (t0 : Z) e :
  0 <= t0 < THREAD_NUM ->
  (forall tid, 0 <= tid < t0 ->
               sh_ok (rd_x1 ph tid) /\ sh_ok (rd_x2 ph tid) /\ sh_ok (rd_y ph tid)) ->
  rec_lane dev bid ph status t0 = Fault e ->
  run_phase tmp dev bid ph (status, d_data) = Fault e.
Proof.
  intros Ht0 Hbefore Hfault. unfold run_phase.
  assert (Hsplit : lanes = seqZ 0 t0 ++ t0 :: seqZ (t0 + 1) (THREAD_NUM - t0 - 1)).
  { unfold lanes. replace THREAD_NUM with (t0 + (1 + (THREAD_NUM - t0 - 1))) at 1 by lia.
    rewrite seqZ_app by lia. rewrite (seqZ_cons (0 + t0)) by lia.
    repeat f_equal; lia. }
  rewrite Hsplit at 1.
  rewrite (mapM_fault _ (rec_val dev bid ph status) _ _ _ e); [reflexivity | | exact Hfault].
  intros tid Ht. apply elem_of_seqZ in Ht.
  destruct (Hbefore tid) as (H1 & H2 & H3); [lia|]. apply rec_lane_ok; assumption.
Qed.

End Phase.

(** ** The sequential generator *)

Section Sequential.

Variable tmp : device -> Z -> Z -> Z -> Z.
Variables (dev : device) (bid pos : Z).
Hypothesis pos_pos : 1 <= pos.

Lemma seq_generate_add (n m : nat) (s : list Z) :
  seq_generate tmp dev bid pos (n + m) s =
  let '(s1, o1) := seq_generate tmp dev bid pos n s in
  let '(s2, o2) := seq_generate tmp dev bid pos m s1 in
  (s2, o1 ++ o2).
Proof.
  revert s. induction n as [|n IH]; intros s; simpl.
  - destruct (seq_generate tmp dev bid pos m s). reflexivity.
  - rewrite IH.
    destruct (seq_generate tmp dev bid pos n _) as [s2 os].
    destruct (seq_generate tmp dev bid pos m s2) as [s3 os']. reflexivity.
Qed.

Lemma nth_drop_app (W acc : list Z) (k j : nat) :
  (k + j < length W)%nat -> nth j (drop k W ++ acc) 0 = nth (k + j) W 0.
Proof.
  intros H. rewrite app_nth1 by (rewrite length_drop; lia).
  rewrite !nth_lookup, lookup_drop. reflexivity.
Qed.

(** As long as the steps read inside the window they started from, they
    do not depend on one another: [n] steps are [n] independent
    computations on that window. *)
Lemma seq_generate_window (W : list Z) :
  forall (n : nat) (k : Z) (acc : list Z),
    0 <= k -> Z.of_nat (length acc) = k ->
    k + Z.of_nat n + pos <= Z.of_nat (length W) ->
    seq_generate tmp dev bid pos n (drop (Z.to_nat k) W ++ acc)
    = (drop (Z.to_nat k + n) W ++ acc ++ window_words dev bid pos W (seqZ k (Z.of_nat n)),
       window_outputs tmp dev bid pos W (seqZ k (Z.of_nat n))).
Proof.
  induction n as [|n IH]; intros k acc Hk Hacc Hlen.
  - simpl. rewrite Nat.add_0_r, app_nil_r. reflexivity.
  - rewrite seqZ_cons by lia.
    replace (Z.pred (Z.of_nat (Datatypes.S n))) with (Z.of_nat n) by lia.
    cbn [seq_generate]. unfold seq_step.
    replace (nth 0 (drop (Z.to_nat k) W ++ acc) 0) with (nth (Z.to_nat k) W 0)
      by (rewrite nth_drop_app by lia; f_equal; lia).
    replace (nth 1 (drop (Z.to_nat k) W ++ acc) 0) with (nth (Z.to_nat (k + 1)) W 0)
      by (rewrite nth_drop_app by lia; f_equal; lia).
    replace (nth (Z.to_nat pos) (drop (Z.to_nat k) W ++ acc) 0)
      with (nth (Z.to_nat (k + pos)) W 0)
      by (rewrite nth_drop_app by lia; f_equal; lia).
    replace (nth (Z.to_nat (pos - 1)) (drop (Z.to_nat k) W ++ acc) 0)
      with (nth (Z.to_nat (k + pos - 1)) W 0)
      by (rewrite nth_drop_app by lia; f_equal; lia).
    set (r := para_rec dev _ _ _ bid).
    replace (drop 1 (drop (Z.to_nat k) W ++ acc) ++ [r])
      with (drop (Z.to_nat (Z.succ k)) W ++ (acc ++ [r])).
    2:{ rewrite drop_app_le by (rewrite length_drop; lia).
        rewrite drop_drop, <- app_assoc. do 2 f_equal. lia. }
    rewrite IH by (try rewrite length_app; simpl; lia).
    unfold window_words, window_outputs. cbn [map]. fold r.
    rewrite <- !app_assoc. simpl. do 3 f_equal. lia.
Qed.

Lemma seq_generate_lanes (W : list Z) :
  THREAD_NUM + pos <= Z.of_nat (length W) ->
  seq_generate tmp dev bid pos 256 W
  = (drop 256 W ++ window_words dev bid pos W lanes,
     window_outputs tmp dev bid pos W lanes).
Proof.
  intros H.
  pose proof (seq_generate_window W 256 0 [] ltac:(lia) eq_refl) as E.
  change (Z.to_nat 0) with 0%nat in E. rewrite drop_0, app_nil_r in E.
  rewrite E by (unfold THREAD_NUM in H; lia). reflexivity.
Qed.

End Sequential.

(** ** A phase is 256 steps of the sequential generator *)

(** A phase that reads a window stays inside the arrays. *)
Lemma phase_bounds (ph : phase) (pos base obase : Z) (d_data : list Z) (tid : Z) :
  0 <= obase /\ obase + THREAD_NUM <= Z.of_nat (length d_data) ->
  (base + N) mod LARGE_SIZE + THREAD_NUM <= LARGE_SIZE ->
  phase_at ph pos base obase ->
  0 <= tid < THREAD_NUM ->
  phase_in_bounds ph tid /\ 0 <= out ph tid < Z.of_nat (length d_data).
Proof.
  intros [Ho1 Ho2] Hw Hat Ht. destruct (Hat tid Ht) as (E1 & E2 & E3 & E4 & E5 & E6).
  unfold phase_in_bounds. rewrite E1, E2, E3, E4, E5, E6.
  unfold sh_ok, LARGE_SIZE, THREAD_NUM, N in *.
  repeat split; try (Z.to_euclidean_division_equations; lia); lia.
Qed.

Section PhaseSequential.

Variable tmp : device -> Z -> Z -> Z -> Z.
Variables (dev : device) (bid pos : Z).
Variables (ph : phase) (base obase : Z) (status W d_data : list Z).

Hypothesis pos_range : 1 <= pos <= N - THREAD_NUM.
Hypothesis base_range : 0 <= base < LARGE_SIZE.
Hypothesis write_range : (base + N) mod LARGE_SIZE + THREAD_NUM <= LARGE_SIZE.
Hypothesis obase_range : 0 <= obase /\ obase + THREAD_NUM <= Z.of_nat (length d_data).
Hypothesis at_base : phase_at ph pos base obase.
Hypothesis window : holds base status W.

Ltac consts := unfold sh_ok, LARGE_SIZE, THREAD_NUM, N in *.

Lemma map_ext_lanes {B : Type} (f g : Z -> B) :
  (forall t, 0 <= t < THREAD_NUM -> f t = g t) -> map f lanes = map g lanes.
Proof.
  intros H. apply map_ext_in. intros t Ht. apply H, elem_of_lanes, list_elem_of_In, Ht.
Qed.

Lemma zip_map_self {B : Type} (f : Z -> B) (l : list Z) :
  zip l (map f l) = map (fun t => (t, f t)) l.
Proof. induction l as [|t l IH]; simpl; [reflexivity | rewrite IH; reflexivity]. Qed.

Lemma window_read j :
  0 <= j < N ->
  nth (Z.to_nat ((base + j) mod LARGE_SIZE)) status 0 = nth (Z.to_nat j) W 0.
Proof. destruct window as (_ & _ & H). apply H. Qed.

Lemma phase_words_window :
  phase_words dev bid ph status = window_words dev bid pos W lanes.
Proof.
  unfold phase_words, window_words. apply map_ext_lanes. intros t Ht.
  destruct (at_base t Ht) as (E1 & E2 & E3 & _). unfold rec_val.
  rewrite E1, E2, E3.
  replace (base + t + 1) with (base + (t + 1)) by lia.
  replace (base + t + pos) with (base + (t + pos)) by lia.
  rewrite !window_read by (consts; lia). reflexivity.
Qed.

Lemma length_window_words ts : length (window_words dev bid pos W ts) = length ts.
Proof. unfold window_words. apply length_map. Qed.

Lemma phase_status_splice :
  phase_status dev bid ph status
  = splice ((base + N) mod LARGE_SIZE) (window_words dev bid pos W lanes) status.
Proof.
  unfold phase_status. rewrite phase_words_window.
  apply scatter_lanes.
  - consts. Z.to_euclidean_division_equations. lia.
  - rewrite length_window_words. reflexivity.
  - intros t Ht. destruct (at_base t Ht) as (_ & _ & _ & _ & E & _). exact E.
  - destruct window as (L & _). rewrite L. exact write_range.
Qed.

(** The stores of the phase leave the window it reads untouched. *)
Lemma window_read_after j :
  0 <= j < N ->
  nth (Z.to_nat ((base + j) mod LARGE_SIZE)) (phase_status dev bid ph status) 0
  = nth (Z.to_nat j) W 0.
Proof.
  intros Hj. rewrite phase_status_splice.
  destruct window as (L & _).
  rewrite nth_splice.
  2:{ consts. Z.to_euclidean_division_equations. lia. }
  2:{ rewrite length_window_words, length_lanes. consts. lia. }
  rewrite length_window_words, length_lanes.
  rewrite decide_False.
  - apply window_read, Hj.
  - consts. Z.to_euclidean_division_equations. lia.
Qed.

Lemma phase_outputs_window :
  phase_outputs tmp dev bid ph status = window_outputs tmp dev bid pos W lanes.
Proof.
  unfold phase_outputs. rewrite phase_words_window.
  unfold window_words at 1. rewrite zip_map_self, map_map.
  unfold window_outputs. apply map_ext_lanes. intros t Ht. cbn [fst snd].
  destruct (at_base t Ht) as (_ & _ & _ & E & _). rewrite E.
  replace (base + t + pos - 1) with (base + (t + pos - 1)) by lia.
  rewrite window_read_after by (consts; lia). reflexivity.
Qed.

Lemma phase_data_splice :
  phase_data tmp dev bid ph status d_data
  = splice obase (window_outputs tmp dev bid pos W lanes) d_data.
Proof.
  unfold phase_data. rewrite phase_outputs_window.
  apply scatter_lanes.
  - apply obase_range.
  - unfold window_outputs. rewrite length_map. reflexivity.
  - intros t Ht. destruct (at_base t Ht) as (_ & _ & _ & _ & _ & E). exact E.
  - apply obase_range.
Qed.

(** After the phase the buffer holds the window moved by 256 words. *)
Lemma holds_after :
  holds ((base + THREAD_NUM) mod LARGE_SIZE) (phase_status dev bid ph status)
    (drop 256 W ++ window_words dev bid pos W lanes).
Proof.
  destruct window as (L & LW & Hw).
  assert (Lst : length (phase_status dev bid ph status) = length status)
    by (unfold phase_status; apply length_scatter).
  split; [rewrite Lst; exact L|].
  split; [rewrite length_app, length_drop, length_window_words, length_lanes; consts; lia|].
  intros j Hj.
  destruct (Z.lt_ge_cases j (N - THREAD_NUM)) as [Hold | Hnew].
  - (* a word of the old window *)
    replace (((base + THREAD_NUM) mod LARGE_SIZE + j) mod LARGE_SIZE)
      with ((base + (THREAD_NUM + j)) mod LARGE_SIZE)
      by (consts; Z.to_euclidean_division_equations; lia).
    rewrite window_read_after by (consts; lia).
    rewrite app_nth1 by (rewrite length_drop; consts; lia).
    rewrite !nth_lookup, lookup_drop. do 2 f_equal. consts. lia.
  - (* a word of this phase *)
    rewrite phase_status_splice.
    rewrite nth_splice.
    2:{ consts. Z.to_euclidean_division_equations. lia. }
    2:{ rewrite length_window_words, length_lanes. consts. lia. }
    rewrite length_window_words, length_lanes.
    rewrite decide_True by (consts; Z.to_euclidean_division_equations; lia).
    rewrite app_nth2 by (rewrite length_drop; consts; lia).
    rewrite length_drop. f_equal. consts. Z.to_euclidean_division_equations. lia.
Qed.

(** The phase on the buffer is the sequential generator on the window. *)
Lemma phase_sequential :
  run_phase tmp dev bid ph (status, d_data)
  = Ok (phase_status dev bid ph status,
        splice obase (seq_generate tmp dev bid pos 256 W).2 d_data) /\
  holds ((base + THREAD_NUM) mod LARGE_SIZE) (phase_status dev bid ph status)
    (seq_generate tmp dev bid pos 256 W).1.
Proof.
  rewrite seq_generate_lanes by (destruct window as (_ & LW & _); consts; lia).
  cbn [fst snd]. split.
  - rewrite run_phase_ok
      by (intros tid Ht; apply (phase_bounds ph pos base obase); assumption).
    rewrite phase_data_splice. reflexivity.
  - apply holds_after.
Qed.

End PhaseSequential.

(** ** A batch *)

Section Batch.

Variables (dev : device) (bid pos size i : Z).

Ltac consts := unfold sh_ok, LARGE_SIZE, THREAD_NUM, N in *.
Ltac arith := consts; Z.to_euclidean_division_equations; lia.

Lemma length_seq_generate tmp (n : nat) (s : list Z) :
  length (seq_generate tmp dev bid pos n s).2 = n.
Proof.
  revert s. induction n as [|n IH]; intros s; simpl; [reflexivity|].
  specialize (IH (drop 1 s ++ [para_rec dev (nth 0 s 0) (nth 1 s 0)
                                 (nth (Z.to_nat pos) s 0) bid])).
  destruct (seq_generate tmp dev bid pos n _) as [s2 os]. simpl in *. lia.
Qed.

Lemma splice_splice a (os1 os2 d : list Z) :
  0 <= a ->
  a + Z.of_nat (length os1) + Z.of_nat (length os2) <= Z.of_nat (length d) ->
  splice (a + Z.of_nat (length os1)) os2 (splice a os1 d) = splice a (os1 ++ os2) d.
Proof.
  intros Ha H. unfold splice.
  assert (Lt : length (take (Z.to_nat a) d) = Z.to_nat a) by (rewrite length_take; lia).
  replace (Z.to_nat (a + Z.of_nat (length os1)))
    with (length (take (Z.to_nat a) d ++ os1)) by (rewrite length_app; lia).
  rewrite (app_assoc (take (Z.to_nat a) d) os1).
  rewrite take_app_length.
  rewrite drop_app_add, drop_drop.
  rewrite length_app, <- !app_assoc.
  replace (Z.to_nat a + length os1 + length os2)%nat
    with (Z.to_nat a + (length os1 + length os2))%nat by lia.
  reflexivity.
Qed.

(** A buffer of [LARGE_SIZE] words holds its last [N] words as the window
    at slot [LARGE_SIZE - N], where [status_read] is meant to put them. *)
Lemma holds_drop (status : list Z) :
  Z.of_nat (length status) = LARGE_SIZE ->
  holds (LARGE_SIZE - N) status (drop (Z.to_nat (LARGE_SIZE - N)) status).
Proof.
  intros L. split; [exact L|]. split; [rewrite length_drop; consts; lia|].
  intros j Hj. rewrite !nth_lookup, lookup_drop. do 2 f_equal.
  consts. Z.to_euclidean_division_equations. lia.
Qed.

Lemma holds_window base (status W : list Z) :
  base = LARGE_SIZE - N -> holds base status W ->
  W = drop (Z.to_nat (LARGE_SIZE - N)) status.
Proof.
  intros -> (L & LW & H). apply list_eq. intros k.
  rewrite lookup_drop.
  destruct (decide (k < 726)%nat) as [Hk | Hk].
  - specialize (H (Z.of_nat k) ltac:(consts; lia)).
    replace ((LARGE_SIZE - N + Z.of_nat k) mod LARGE_SIZE) with (298 + Z.of_nat k) in H
      by (consts; Z.to_euclidean_division_equations; lia).
    rewrite !nth_lookup in H.
    replace (Z.to_nat (298 + Z.of_nat k)) with (Z.to_nat (LARGE_SIZE - N) + k)%nat in H
      by (consts; lia).
    rewrite Nat2Z.id in H.
    destruct (lookup_lt_is_Some_2 W k ltac:(consts; lia)) as [x Hx].
    destruct (lookup_lt_is_Some_2 status (Z.to_nat (LARGE_SIZE - N) + k)
                ltac:(consts; lia)) as [y Hy].
    rewrite Hx, Hy in *. simpl in H. congruence.
  - rewrite !lookup_ge_None_2; [reflexivity | consts; lia | consts; lia].
Qed.

(** *** [mtgp32_single_kernel] *)

Hypothesis pos_range : 1 <= pos <= N - 2 * THREAD_NUM.

Lemma single_phases_at :
  exists ph1 ph2 ph3 ph4,
    single_phases pos size bid i = [ph1; ph2; ph3; ph4] /\
    phase_at ph1 pos 298 (size * bid + i) /\
    phase_at ph2 pos 554 (size * bid + i + 256) /\
    phase_at ph3 pos 810 (size * bid + i + 512) /\
    phase_at ph4 pos 42 (size * bid + i + 768).
Proof.
  do 4 eexists. split; [reflexivity|].
  repeat split; simpl; consts; try (Z.to_euclidean_division_equations; lia); lia.
Qed.

(** The first, second and fourth phase of [mtgp32_uint32_kernel] read the
    same windows; the third one is not among them. *)
Lemma uint32_phases_at :
  exists ph1 ph2 ph3 ph4,
    uint32_phases pos size bid i = [ph1; ph2; ph3; ph4] /\
    phase_at ph1 pos 298 (size * bid + i) /\
    phase_at ph2 pos 554 (size * bid + i + 256) /\
    phase_at ph4 pos 42 (size * bid + i + 768) /\
    ph3 = {| rd_x1 := fun tid => 6 * THREAD_NUM - N + tid;
             rd_x2 := fun tid => 6 * THREAD_NUM - N + tid + 1;
             rd_y := fun tid => 6 * THREAD_NUM - N + tid + pos;
             wr := fun tid => tid + 2 * THREAD_NUM;
             rd_t := fun tid => tid + pos - 1 + 6 * THREAD_NUM - N;
             out := fun tid => size * bid + 2 * THREAD_NUM + i + tid |}.
Proof.
  do 4 eexists. split; [reflexivity|].
  repeat split; simpl; consts; try (Z.to_euclidean_division_equations; lia); lia.
Qed.

(** *** [mtgp32_uint32_kernel] *)

Lemma uint32_phase3_lane (st : list Z) :
  rec_lane dev bid
    {| rd_x1 := fun tid => 6 * THREAD_NUM - N + tid;
       rd_x2 := fun tid => 6 * THREAD_NUM - N + tid + 1;
       rd_y := fun tid => 6 * THREAD_NUM - N + tid + pos;
       wr := fun tid => tid + 2 * THREAD_NUM;
       rd_t := fun tid => tid + pos - 1 + 6 * THREAD_NUM - N;
       out := fun tid => size * bid + 2 * THREAD_NUM + i + tid |}
    st (N - 2 * THREAD_NUM - pos)
  = Fault (OutOfBounds Shared 1024).
Proof.
  unfold rec_lane. cbn [rd_x1 rd_x2 rd_y].
  set (t0 := N - 2 * THREAD_NUM - pos).
  rewrite (ld_ok Shared LARGE_SIZE st (6 * THREAD_NUM - N + t0))
    by (unfold t0; consts; lia).
  rewrite res_bind_ok.
  destruct (decide (pos = 1)) as [E | Hne].
  - rewrite (ld_fault Shared LARGE_SIZE st (6 * THREAD_NUM - N + t0 + 1))
      by (unfold t0; consts; lia).
    rewrite res_bind_fault. do 2 f_equal. unfold t0. consts. lia.
  - rewrite (ld_ok Shared LARGE_SIZE st (6 * THREAD_NUM - N + t0 + 1))
      by (unfold t0; consts; lia).
    rewrite res_bind_ok.
    rewrite (ld_fault Shared LARGE_SIZE st (6 * THREAD_NUM - N + t0 + pos))
      by (unfold t0; consts; lia).
    rewrite res_bind_fault. do 2 f_equal. unfold t0. consts. lia.
Qed.

Variables (status d_data : list Z).
Hypothesis out_range :
  0 <= size * bid + i /\ size * bid + i + LARGE_SIZE <= Z.of_nat (length d_data).

(** One pass of [mtgp32_uint32_kernel]: the first two phases run, the third
    one reads [status[1024]] in lane [N - 2 * THREAD_NUM - pos]. *)
Lemma uint32_batch_fault :
  uint32_batch dev bid pos size i (status, d_data) = Fault (OutOfBounds Shared 1024).
Proof.
  destruct uint32_phases_at as (ph1 & ph2 & ph3 & ph4 & E & A1 & A2 & _ & E3).
  unfold uint32_batch. rewrite E. clear E. cbn [for_each].
  set (o := size * bid + i) in *.
  destruct out_range as [Ho1 Ho2].
  rewrite (run_phase_ok temper dev bid ph1).
  2:{ intros tid Ht. apply (phase_bounds ph1 pos 298 o); try assumption; arith. }
  rewrite res_bind_ok.
  set (st1 := phase_status dev bid ph1 status).
  set (d1 := phase_data temper dev bid ph1 status d_data).
  assert (Ld1 : length d1 = length d_data) by apply length_scatter.
  rewrite (run_phase_ok temper dev bid ph2).
  2:{ intros tid Ht. apply (phase_bounds ph2 pos 554 (o + 256)); try assumption;
      rewrite ?Ld1; arith. }
  rewrite res_bind_ok.
  rewrite (run_phase_fault temper dev bid ph3 _ _ (N - 2 * THREAD_NUM - pos)
             (OutOfBounds Shared 1024)); [reflexivity | consts; lia | |].
  - intros tid Ht. subst ph3. cbn [rd_x1 rd_x2 rd_y]. consts. lia.
  - subst ph3. apply uint32_phase3_lane.
Qed.

Variable W : list Z.
Hypothesis window : holds (LARGE_SIZE - N) status W.

(** One pass of [mtgp32_single_kernel] through its four phases is 1024
    steps of the sequential generator with [temper_single]. *)
Lemma single_batch_sequential :
  exists status',
    single_batch dev bid pos size i (status, d_data)
    = Ok (status',
          splice (size * bid + i)
            (seq_generate temper_single dev bid pos 1024 W).2 d_data) /\
    holds (LARGE_SIZE - N) status' (seq_generate temper_single dev bid pos 1024 W).1.
Proof.
  destruct single_phases_at as (ph1 & ph2 & ph3 & ph4 & E & A1 & A2 & A3 & A4).
  unfold single_batch. rewrite E. clear E. cbn [for_each].
  set (o := size * bid + i) in *.
  destruct out_range as [Ho1 Ho2].
  assert (Hpos : 1 <= pos <= N - THREAD_NUM) by (consts; lia).
  pose proof (length_seq_generate temper_single 256 W) as L1.
  (* phase 1 *)
  destruct (phase_sequential temper_single dev bid pos ph1 298 o status W d_data)
    as [R1 H1];
    [ exact Hpos | arith | arith | arith | exact A1 | exact window | ].
  destruct (seq_generate temper_single dev bid pos 256 W) as [W1 os1] eqn:G1.
  cbn [fst snd] in R1, H1, L1. rewrite R1, res_bind_ok. clear R1.
  set (st1 := phase_status dev bid ph1 status) in *.
  set (d1 := splice o os1 d_data).
  assert (Ld1 : length d1 = length d_data) by (apply length_splice; consts; lia).
  pose proof (length_seq_generate temper_single 256 W1) as L2.
  (* phase 2 *)
  destruct (phase_sequential temper_single dev bid pos ph2 554 (o + 256) st1 W1 d1)
    as [R2 H2];
    [ exact Hpos | arith | arith | rewrite Ld1; arith
    | exact A2 | exact H1 | ].
  destruct (seq_generate temper_single dev bid pos 256 W1) as [W2 os2] eqn:G2.
  cbn [fst snd] in R2, H2, L2. rewrite R2, res_bind_ok. clear R2.
  set (st2 := phase_status dev bid ph2 st1) in *.
  set (d2 := splice (o + 256) os2 d1).
  assert (Ld2 : length d2 = length d_data)
    by (unfold d2; rewrite length_splice; consts; lia).
  pose proof (length_seq_generate temper_single 256 W2) as L3.
  (* phase 3 *)
  destruct (phase_sequential temper_single dev bid pos ph3 810 (o + 512) st2 W2 d2)
    as [R3 H3];
    [ exact Hpos | arith | arith | rewrite Ld2; arith
    | exact A3 | exact H2 | ].
  destruct (seq_generate temper_single dev bid pos 256 W2) as [W3 os3] eqn:G3.
  cbn [fst snd] in R3, H3, L3. rewrite R3, res_bind_ok. clear R3.
  set (st3 := phase_status dev bid ph3 st2) in *.
  set (d3 := splice (o + 512) os3 d2).
  assert (Ld3 : length d3 = length d_data)
    by (unfold d3; rewrite length_splice; consts; lia).
  pose proof (length_seq_generate temper_single 256 W3) as L4.
  (* phase 4 *)
  destruct (phase_sequential temper_single dev bid pos ph4 42 (o + 768) st3 W3 d3)
    as [R4 H4];
    [ exact Hpos | arith | arith | rewrite Ld3; arith
    | exact A4 | exact H3 | ].
  destruct (seq_generate temper_single dev bid pos 256 W3) as [W4 os4] eqn:G4.
  cbn [fst snd] in R4, H4, L4. rewrite R4, res_bind_ok. clear R4.
  assert (G : seq_generate temper_single dev bid pos 1024 W
              = (W4, os1 ++ os2 ++ os3 ++ os4)).
  { change 1024%nat with (256 + (256 + (256 + 256)))%nat.
    rewrite seq_generate_add, G1, seq_generate_add, G2, seq_generate_add, G3, G4.
    reflexivity. }
  rewrite G. cbn [fst snd].
  eexists. split; [|exact H4].
  do 2 f_equal.
  unfold d3, d2, d1.
  replace (o + 256) with (o + Z.of_nat (length os1)) by lia.
  rewrite splice_splice by (consts; lia).
  replace (o + 512) with (o + Z.of_nat (length (os1 ++ os2)))
    by (rewrite length_app; lia).
  rewrite splice_splice by (rewrite ?length_app; consts; lia).
  replace (o + 768) with (o + Z.of_nat (length ((os1 ++ os2) ++ os3)))
    by (rewrite !length_app; lia).
  rewrite splice_splice by (rewrite ?length_app; consts; lia).
  rewrite <- !app_assoc. reflexivity.
Qed.

End Batch.

(** ** Saving and restoring the state *)

Lemma status_read_fault (status d_status : list Z) :
  status_read status d_status = Fault (OutOfBounds DStatus 726).
Proof. vm_compute. reflexivity. Qed.

Lemma status_write_fault (d_status status : list Z) :
  status_write d_status status = Fault (OutOfBounds Shared 1024).
Proof. vm_compute. reflexivity. Qed.

(** C4.  The guard [tid < N - THREAD_NUM] of the third assignment of
    [status_read] and [status_write] holds for every lane, so lane 214
    reaches [d_status[bid].status[726]] and [status[1024]], one past the end
    of both arrays: [status_read] reads past the [N] saved words and
    [status_write] reads past the [LARGE_SIZE] words of the buffer, whatever
    the arrays contain. *)
Theorem status_read_overruns (status d_status : list Z) :
  status_read status d_status = Fault (OutOfBounds DStatus 726) /\
  status_write d_status status = Fault (OutOfBounds Shared 1024) /\
  exists c, status_read_copies !! 2%nat = Some c /\
            status_write_copies !! 2%nat = Some c /\
            forallb (guard c) lanes = true /\
            ds_ix c 214 = 726 /\ ~ ds_ok (ds_ix c 214) /\
            sh_ix c 214 = 1024 /\ ~ sh_ok (sh_ix c 214).
Proof.
  split; [apply status_read_fault|]. split; [apply status_write_fault|].
  eexists. split; [reflexivity|]. split; [reflexivity|].
  split; [vm_compute; reflexivity|]. simpl.
  unfold ds_ok, sh_ok, LARGE_SIZE, THREAD_NUM, N. repeat split; lia.
Qed.

(** ** The kernels *)

Lemma uint32_kernel_fault dev bid status d_status d_data size :
  mtgp32_uint32_kernel dev bid status d_status d_data size
  = Fault (OutOfBounds DStatus 726).
Proof. unfold mtgp32_uint32_kernel. rewrite status_read_fault. reflexivity. Qed.

Lemma single_kernel_fault dev bid status d_status d_data size :
  mtgp32_single_kernel dev bid status d_status d_data size
  = Fault (OutOfBounds DStatus 726).
Proof. unfold mtgp32_single_kernel. rewrite status_read_fault. reflexivity. Qed.

(** C1.  [mtgp32_uint32_kernel] produces no output sequence at all: on every
    input it stops in [status_read], at [d_status[bid].status[726]].  Its
    loop body, entered on any buffer with a [pos] of at most
    [N - 2 * THREAD_NUM], stops in the third phase, where lane
    [N - 2 * THREAD_NUM - pos] reads [status[1024]]: the subscripts of that
    phase are not reduced modulo [LARGE_SIZE]. *)
Theorem uint32_kernel_not_sequential
    (dev : device) (bid pos size i : Z) (status d_status d_data batch_status : list Z) :
  1 <= pos <= N - 2 * THREAD_NUM ->
  0 <= size * bid + i /\ size * bid + i + LARGE_SIZE <= Z.of_nat (length d_data) ->
  mtgp32_uint32_kernel dev bid status d_status d_data size
  = Fault (OutOfBounds DStatus 726) /\
  uint32_batch dev bid pos size i (batch_status, d_data)
  = Fault (OutOfBounds Shared 1024).
Proof.
  intros Hpos Hout. split; [apply uint32_kernel_fault|].
  apply uint32_batch_fault; assumption.
Qed.

Lemma uint32_kernel_not_sequential_witness :
  mtgp32_uint32_kernel example_device 0 example_status example_d_status
    (malloc 1024) 1024
  = Fault (OutOfBounds DStatus 726) /\
  uint32_batch example_device 0 84 1024 0 (example_status, malloc 1024)
  = Fault (OutOfBounds Shared 1024).
Proof.
  apply (uint32_kernel_not_sequential example_device 0 84 1024 0 example_status
           example_d_status (malloc 1024) example_status).
  - unfold N, THREAD_NUM. lia.
  - vm_compute. split; discriminate.
Defined.

(** C2.  Two calls of [mtgp32_uint32_kernel] in a row, with sizes [A] and
    [B], and one call with size [A + B] all stop in [status_read] before a
    word is produced or a state is saved: there are no two output sequences
    to concatenate and no final state to compare. *)
Theorem uint32_kernel_never_resumes
    (dev : device) (bid : Z) (status1 status2 d_status d_data1 d_data2 d_data : list Z)
    (A B : Z) :
  uint32_twice dev bid status1 status2 d_status d_data1 d_data2 A B
  = Fault (OutOfBounds DStatus 726) /\
  mtgp32_uint32_kernel dev bid status1 d_status d_data (A + B)
  = Fault (OutOfBounds DStatus 726).
Proof.
  split.
  - unfold uint32_twice. rewrite uint32_kernel_fault. reflexivity.
  - apply uint32_kernel_fault.
Qed.


Lemma example_status_length : Z.of_nat (length example_status) = LARGE_SIZE.
Proof. reflexivity. Qed.


(** ** Subscripts *)

(** C9, as the specification states it, fails inside the range it gives
    for [pos]: with [pos = 215] lane 255 of the second phase of
    [mtgp32_single_kernel] reads [status[1024]]. *)
Lemma single_phase2_overruns_at_pos_215 :
  0 <= 255 < THREAD_NUM /\ 1 <= 215 <= N - 1 /\
  exists ph, single_phases 215 1024 0 0 !! 1%nat = Some ph /\
             rd_y ph 255 = 1024 /\ ~ phase_in_bounds ph 255.
Proof.
  split; [unfold THREAD_NUM; lia|]. split; [unfold N; lia|].
  eexists. split; [reflexivity|]. split; [reflexivity|].
  unfold phase_in_bounds, sh_ok, LARGE_SIZE, THREAD_NUM, N. simpl. lia.
Qed.

(** C9, amended.  For every lane and every [pos] from 1 to
    [N - 2 * THREAD_NUM] = 214, all subscripts of the shared buffer in the
    four phases of [mtgp32_single_kernel] and in the first, second and fourth
    phase of [mtgp32_uint32_kernel] lie in [0, LARGE_SIZE); so do, together
    with the subscripts of the saved state in [0, N), those of the first two
    assignments of [status_read] and [status_write], and those of the third
    one in the lanes below [N - 2 * THREAD_NUM]. *)
Theorem subscripts_in_bounds (tid pos size bid i : Z) :
  0 <= tid < THREAD_NUM ->
  1 <= pos <= N - 2 * THREAD_NUM ->
  Forall (fun ph => phase_in_bounds ph tid) (single_phases pos size bid i) /\
  (forall k ph, uint32_phases pos size bid i !! k = Some ph -> k <> 2%nat ->
                phase_in_bounds ph tid) /\
  (forall k c, status_read_copies !! k = Some c \/ status_write_copies !! k = Some c ->
               (k = 2%nat -> tid < N - 2 * THREAD_NUM) ->
               sh_ok (sh_ix c tid) /\ ds_ok (ds_ix c tid)).
Proof.
  intros Ht Hpos. split; [|split].
  - unfold single_phases. repeat constructor; simpl;
      unfold sh_ok, LARGE_SIZE, THREAD_NUM, N in *;
      try (Z.to_euclidean_division_equations; lia); lia.
  - intros k ph Hk Hne.
    destruct k as [|[|[|[|k]]]]; try discriminate Hk; try contradiction;
      injection Hk as <-; unfold phase_in_bounds; simpl;
      unfold sh_ok, LARGE_SIZE, THREAD_NUM, N in *;
      repeat split; try (Z.to_euclidean_division_equations; lia); lia.
  - intros k c Hk H2.
    destruct k as [|[|[|k]]].
    4:{ destruct Hk as [Hk | Hk]; discriminate Hk. }
    all: destruct Hk as [Hk | Hk]; injection Hk as <-; simpl;
      unfold sh_ok, ds_ok, LARGE_SIZE, THREAD_NUM, N in *;
      try specialize (H2 eq_refl); lia.
Qed.

Lemma subscripts_in_bounds_witness :
  Forall (fun ph => phase_in_bounds ph 255) (single_phases 214 1024 0 0) /\
  (forall k ph, uint32_phases 214 1024 0 0 !! k = Some ph -> k <> 2%nat ->
                phase_in_bounds ph 255) /\
  (forall k c, status_read_copies !! k = Some c \/ status_write_copies !! k = Some c ->
               (k = 2%nat -> 255 < N - 2 * THREAD_NUM) ->
               sh_ok (sh_ix c 255) /\ ds_ok (ds_ix c 255)).
Proof.
  apply (subscripts_in_bounds 255 214 1024 0 0).
  - unfold THREAD_NUM. lia.
  - unfold N, THREAD_NUM. lia.
Defined.

(** ** The main loop of [mtgp32_single_kernel] *)

Lemma batch_list_lookup (size : Z) (k : nat) (t : Z) :
  batch_list size !! k = Some t -> t = Z.of_nat k * LARGE_SIZE.
Proof.
  unfold batch_list. intros H.
  change (((fun k => k * LARGE_SIZE) <$> seqZ 0 ((size + LARGE_SIZE - 1) / LARGE_SIZE)) !! k
          = Some t) in H.
  apply list_lookup_fmap_Some in H as (j & -> & Hj).
  apply lookup_seqZ in Hj as [-> _]. lia.
Qed.

Lemma seq_generate_succ_batch tmp dev bid pos (k : nat) (W : list Z) :
  seq_generate tmp dev bid pos (1024 * Datatypes.S k) W =
  (let '(s1, o1) := seq_generate tmp dev bid pos (1024 * k) W in
   let '(s2, o2) := seq_generate tmp dev bid pos 1024 s1 in (s2, o1 ++ o2)).
Proof.
  replace (1024 * Datatypes.S k)%nat with (1024 * k + 1024)%nat by lia.
  apply seq_generate_add.
Qed.

(** The main loop of [mtgp32_single_kernel] on a buffer that holds a
    window. *)
Lemma single_loop_generates
    (dev : device) (bid pos size : Z) (status W d_data : list Z) :
  1 <= pos <= N - 2 * THREAD_NUM ->
  holds (LARGE_SIZE - N) status W ->
  0 <= size * bid ->
  size * bid + LARGE_SIZE * Z.of_nat (length (batch_list size))
  <= Z.of_nat (length d_data) ->
  exists status',
    for_step (Z.to_nat size) LARGE_SIZE size 0 (single_batch dev bid pos size)
      (status, d_data)
    = Ok (status',
          splice (size * bid)
            (seq_generate temper_single dev bid pos
               (1024 * length (batch_list size)) W).2 d_data) /\
    holds (LARGE_SIZE - N) status'
      (seq_generate temper_single dev bid pos (1024 * length (batch_list size)) W).1.
Proof.
  intros Hpos Hw Hb Hlen. rewrite kernel_loop_unroll.
  destruct (for_each_inv
              (fun k (s : list Z * list Z) =>
                 holds (LARGE_SIZE - N) s.1
                   (seq_generate temper_single dev bid pos (1024 * k) W).1 /\
                 s.2 = splice (size * bid)
                         (seq_generate temper_single dev bid pos (1024 * k) W).2 d_data)
              (single_batch dev bid pos size) (batch_list size) (status, d_data))
    as ([st' d'] & E & Hh & Hd).
  - change (1024 * 0)%nat with 0%nat. cbn [seq_generate fst snd].
    split; [exact Hw|]. unfold splice. cbn [length app].
    rewrite Nat.add_0_r, take_drop. reflexivity.
  - intros k t [st d] Hk [Hh Hd]. cbn [fst snd] in Hh, Hd.
    pose proof (lookup_lt_Some _ _ _ Hk) as Hlt.
    apply batch_list_lookup in Hk. subst t.
    pose proof (length_seq_generate dev bid pos temper_single (1024 * k) W) as Lk.
    rewrite seq_generate_succ_batch.
    destruct (seq_generate temper_single dev bid pos (1024 * k) W) as [Wk osk].
    cbn [fst snd] in Hh, Hd, Lk.
    assert (Ld : length d = length d_data).
    { subst d. apply length_splice; [exact Hb|]. unfold LARGE_SIZE, THREAD_NUM in *. lia. }
    destruct (single_batch_sequential dev bid pos size (Z.of_nat k * LARGE_SIZE)
                Hpos st d) with (W := Wk) as (st1 & E1 & H1).
    + rewrite Ld. unfold LARGE_SIZE, THREAD_NUM in *. lia.
    + exact Hh.
    + pose proof (length_seq_generate dev bid pos temper_single 1024 Wk) as L1.
      destruct (seq_generate temper_single dev bid pos 1024 Wk) as [W1 os1].
      cbn [fst snd] in E1, H1, L1. eexists. split; [exact E1|]. cbn [fst snd].
      split; [exact H1|].
      subst d.
      replace (size * bid + Z.of_nat k * LARGE_SIZE)
        with (size * bid + Z.of_nat (length osk))
        by (unfold LARGE_SIZE, THREAD_NUM; lia).
      apply splice_splice; [exact Hb|].
      unfold LARGE_SIZE, THREAD_NUM in *. lia.
  - cbn [fst snd] in Hh, Hd. subst d'. exists st'. split; [exact E | exact Hh].
Qed.

(** ** The phases between which the barrier is commented out *)

(** The recursion of a lane after another lane has stored [v] in the slot
    of its first operand. *)
Lemma rec_lane_after_store (dev : device) (bid : Z) (ph : phase) (status : list Z)
    (tid w v : Z) :
  Z.of_nat (length status) = LARGE_SIZE ->
  sh_ok (rd_x1 ph tid) -> sh_ok (rd_x2 ph tid) -> sh_ok (rd_y ph tid) ->
  w = rd_x1 ph tid -> rd_x2 ph tid <> w -> rd_y ph tid <> w ->
  (st ← sto Shared LARGE_SIZE status w v; rec_lane dev bid ph st tid)
  = Ok (para_rec dev v (nth (Z.to_nat (rd_x2 ph tid)) status 0)
          (nth (Z.to_nat (rd_y ph tid)) status 0) bid).
Proof.
  intros L H1 H2 H3 -> N2 N3. unfold sh_ok in *.
  rewrite sto_ok by assumption. rewrite res_bind_ok.
  unfold rec_lane. rewrite !ld_ok by assumption. rewrite !res_bind_ok.
  rewrite nth_insert_eq by lia.
  rewrite !nth_insert_ne by lia. reflexivity.
Qed.

(** X1.  Between the first and the second phase of a pass the barrier is
    commented out in both kernels, and lane [tid + (3 * THREAD_NUM - N)] of
    the second phase stores its new word in the slot of the buffer from
    which lane [tid] of the first phase takes the first operand of
    [para_rec], for every [tid] below [N - 2 * THREAD_NUM].  The two lanes
    are 42 apart.  If that store comes first, lane [tid] computes its word
    from the stored word and not from the word of the window. *)
Theorem second_phase_store_reaches_first_phase
    (dev : device) (bid pos size i tid v : Z) (status : list Z) :
  0 <= tid < N - 2 * THREAD_NUM ->
  1 <= pos <= N - THREAD_NUM ->
  Z.of_nat (length status) = LARGE_SIZE ->
  exists p1 p2 q1 q2,
    single_phases pos size bid i !! 0%nat = Some p1 /\
    single_phases pos size bid i !! 1%nat = Some p2 /\
    uint32_phases pos size bid i !! 0%nat = Some q1 /\
    uint32_phases pos size bid i !! 1%nat = Some q2 /\
    0 <= tid + (3 * THREAD_NUM - N) < THREAD_NUM /\
    wr p2 (tid + (3 * THREAD_NUM - N)) = rd_x1 p1 tid /\
    wr q2 (tid + (3 * THREAD_NUM - N)) = rd_x1 q1 tid /\
    rec_lane dev bid p1 status tid
    = Ok (para_rec dev (nth (Z.to_nat (rd_x1 p1 tid)) status 0)
            (nth (Z.to_nat (rd_x2 p1 tid)) status 0)
            (nth (Z.to_nat (rd_y p1 tid)) status 0) bid) /\
    (st ← sto Shared LARGE_SIZE status (wr p2 (tid + (3 * THREAD_NUM - N))) v;
     rec_lane dev bid p1 st tid)
    = Ok (para_rec dev v (nth (Z.to_nat (rd_x2 p1 tid)) status 0)
            (nth (Z.to_nat (rd_y p1 tid)) status 0) bid) /\
    (st ← sto Shared LARGE_SIZE status (wr q2 (tid + (3 * THREAD_NUM - N))) v;
     rec_lane dev bid q1 st tid)
    = Ok (para_rec dev v (nth (Z.to_nat (rd_x2 q1 tid)) status 0)
            (nth (Z.to_nat (rd_y q1 tid)) status 0) bid).
Proof.
  intros Ht Hpos L. do 4 eexists.
  do 4 (split; [reflexivity|]).
  split; [unfold N, THREAD_NUM in *; lia|].
  split; [cbn [wr rd_x1]; unfold LARGE_SIZE, N, THREAD_NUM; lia|].
  split; [cbn [wr rd_x1]; unfold LARGE_SIZE, N, THREAD_NUM; lia|].
  split; [|split].
  - apply (rec_lane_ok dev bid); cbn [rd_x1 rd_x2 rd_y];
      unfold sh_ok, LARGE_SIZE, N, THREAD_NUM in *; lia.
  - apply rec_lane_after_store; [exact L | | | | | |]; cbn [wr rd_x1 rd_x2 rd_y];
      unfold sh_ok, LARGE_SIZE, N, THREAD_NUM in *; lia.
  - apply rec_lane_after_store; [exact L | | | | | |]; cbn [wr rd_x1 rd_x2 rd_y];
      unfold sh_ok, LARGE_SIZE, N, THREAD_NUM in *; lia.
Qed.

Lemma second_phase_store_reaches_first_phase_witness :
  exists p1 p2 q1 q2,
    single_phases 84 1024 0 0 !! 0%nat = Some p1 /\
    single_phases 84 1024 0 0 !! 1%nat = Some p2 /\
    uint32_phases 84 1024 0 0 !! 0%nat = Some q1 /\
    uint32_phases 84 1024 0 0 !! 1%nat = Some q2 /\
    0 <= 7 + (3 * THREAD_NUM - N) < THREAD_NUM /\
    wr p2 (7 + (3 * THREAD_NUM - N)) = rd_x1 p1 7 /\
    wr q2 (7 + (3 * THREAD_NUM - N)) = rd_x1 q1 7 /\
    rec_lane example_device 0 p1 example_status 7
    = Ok (para_rec example_device (nth (Z.to_nat (rd_x1 p1 7)) example_status 0)
            (nth (Z.to_nat (rd_x2 p1 7)) example_status 0)
            (nth (Z.to_nat (rd_y p1 7)) example_status 0) 0) /\
    (st ← sto Shared LARGE_SIZE example_status (wr p2 (7 + (3 * THREAD_NUM - N))) 5;
     rec_lane example_device 0 p1 st 7)
    = Ok (para_rec example_device 5 (nth (Z.to_nat (rd_x2 p1 7)) example_status 0)
            (nth (Z.to_nat (rd_y p1 7)) example_status 0) 0) /\
    (st ← sto Shared LARGE_SIZE example_status (wr q2 (7 + (3 * THREAD_NUM - N))) 5;
     rec_lane example_device 0 q1 st 7)
    = Ok (para_rec example_device 5 (nth (Z.to_nat (rd_x2 q1 7)) example_status 0)
            (nth (Z.to_nat (rd_y q1 7)) example_status 0) 0).
Proof.
  apply (second_phase_store_reaches_first_phase example_device 0 84 1024 0 7 5
           example_status).
  - unfold N, THREAD_NUM. lia.
  - unfold N, THREAD_NUM. lia.
  - reflexivity.
Defined.

(** X2.  Between the third and the fourth phase the barrier is commented
    out as well, and lane [tid + (3 * THREAD_NUM - N)] of the fourth phase
    stores its new word in the slot from which lane [tid] of the third phase
    takes the first operand of [para_rec], for every [tid] below
    [N - 2 * THREAD_NUM], in both kernels.  In [mtgp32_single_kernel], whose
    third phase reduces its subscripts, lane [tid] then computes its word
    from the stored word if the store comes first. *)
Theorem fourth_phase_store_reaches_third_phase
    (dev : device) (bid pos size i tid v : Z) (status : list Z) :
  0 <= tid < N - 2 * THREAD_NUM ->
  1 <= pos <= N - THREAD_NUM ->
  Z.of_nat (length status) = LARGE_SIZE ->
  exists p3 p4 q3 q4,
    single_phases pos size bid i !! 2%nat = Some p3 /\
    single_phases pos size bid i !! 3%nat = Some p4 /\
    uint32_phases pos size bid i !! 2%nat = Some q3 /\
    uint32_phases pos size bid i !! 3%nat = Some q4 /\
    0 <= tid + (3 * THREAD_NUM - N) < THREAD_NUM /\
    wr p4 (tid + (3 * THREAD_NUM - N)) = rd_x1 p3 tid /\
    wr q4 (tid + (3 * THREAD_NUM - N)) = rd_x1 q3 tid /\
    rec_lane dev bid p3 status tid
    = Ok (para_rec dev (nth (Z.to_nat (rd_x1 p3 tid)) status 0)
            (nth (Z.to_nat (rd_x2 p3 tid)) status 0)
            (nth (Z.to_nat (rd_y p3 tid)) status 0) bid) /\
    (st ← sto Shared LARGE_SIZE status (wr p4 (tid + (3 * THREAD_NUM - N))) v;
     rec_lane dev bid p3 st tid)
    = Ok (para_rec dev v (nth (Z.to_nat (rd_x2 p3 tid)) status 0)
            (nth (Z.to_nat (rd_y p3 tid)) status 0) bid).
Proof.
  intros Ht Hpos L. do 4 eexists.
  do 4 (split; [reflexivity|]).
  split; [unfold N, THREAD_NUM in *; lia|].
  split; [cbn [wr rd_x1]; unfold LARGE_SIZE, N, THREAD_NUM in *;
          Z.to_euclidean_division_equations; lia|].
  split; [cbn [wr rd_x1]; unfold LARGE_SIZE, N, THREAD_NUM; lia|].
  split.
  - apply (rec_lane_ok dev bid); cbn [rd_x1 rd_x2 rd_y];
      unfold sh_ok, LARGE_SIZE, N, THREAD_NUM in *;
      Z.to_euclidean_division_equations; lia.
  - apply rec_lane_after_store; [exact L | | | | | |]; cbn [wr rd_x1 rd_x2 rd_y];
      unfold sh_ok, LARGE_SIZE, N, THREAD_NUM in *;
      Z.to_euclidean_division_equations; lia.
Qed.

Lemma fourth_phase_store_reaches_third_phase_witness :
  exists p3 p4 q3 q4,
    single_phases 84 1024 0 0 !! 2%nat = Some p3 /\
    single_phases 84 1024 0 0 !! 3%nat = Some p4 /\
    uint32_phases 84 1024 0 0 !! 2%nat = Some q3 /\
    uint32_phases 84 1024 0 0 !! 3%nat = Some q4 /\
    0 <= 7 + (3 * THREAD_NUM - N) < THREAD_NUM /\
    wr p4 (7 + (3 * THREAD_NUM - N)) = rd_x1 p3 7 /\
    wr q4 (7 + (3 * THREAD_NUM - N)) = rd_x1 q3 7 /\
    rec_lane example_device 0 p3 example_status 7
    = Ok (para_rec example_device (nth (Z.to_nat (rd_x1 p3 7)) example_status 0)
            (nth (Z.to_nat (rd_x2 p3 7)) example_status 0)
            (nth (Z.to_nat (rd_y p3 7)) example_status 0) 0) /\
    (st ← sto Shared LARGE_SIZE example_status (wr p4 (7 + (3 * THREAD_NUM - N))) 5;
     rec_lane example_device 0 p3 st 7)
    = Ok (para_rec example_device 5 (nth (Z.to_nat (rd_x2 p3 7)) example_status 0)
            (nth (Z.to_nat (rd_y p3 7)) example_status 0) 0).
Proof.
  apply (fourth_phase_store_reaches_third_phase example_device 0 84 1024 0 7 5
           example_status).
  - unfold N, THREAD_NUM. lia.
  - unfold N, THREAD_NUM. lia.
  - reflexivity.
Defined.

(** ** The phases of [mtgp32_uint32_kernel] that are reduced or need no
       reduction *)

Lemma uint32_phases_at_wide (pos size bid i : Z) :
  1 <= pos <= N - THREAD_NUM ->
  exists ph1 ph2 ph3 ph4,
    uint32_phases pos size bid i = [ph1; ph2; ph3; ph4] /\
    phase_at ph1 pos 298 (size * bid + i) /\
    phase_at ph2 pos 554 (size * bid + i + 256) /\
    phase_at ph4 pos 42 (size * bid + i + 768).
Proof.
  intros Hpos. do 4 eexists. split; [reflexivity|].
  repeat split; simpl; unfold LARGE_SIZE, THREAD_NUM, N in *;
    try (Z.to_euclidean_division_equations; lia); lia.
Qed.

(** A buffer holds, at any slot [base] from which [N] slots fit without
    wrapping, the [N] words it has there. *)
Lemma holds_take_drop (base : Z) (status : list Z) :
  0 <= base <= LARGE_SIZE - N ->
  Z.of_nat (length status) = LARGE_SIZE ->
  holds base status (take (Z.to_nat N) (drop (Z.to_nat base) status)).
Proof.
  intros Hb L. split; [exact L|].
  split; [rewrite length_take, length_drop; unfold LARGE_SIZE, THREAD_NUM, N in *; lia|].
  intros j Hj. rewrite !nth_lookup, lookup_take_lt by lia. rewrite lookup_drop.
  do 2 f_equal. unfold LARGE_SIZE, THREAD_NUM, N in *.
  Z.to_euclidean_division_equations. lia.
Qed.

(** X3.  With [pos] at most [N - THREAD_NUM], the fourth phase of a pass
    of either kernel, started on a buffer that holds a window [W] at slot
    [3 * THREAD_NUM - N], computes the next 256 words of the sequential
    generator with the tempering of that kernel, writes the tempered words
    to [d_data[size * bid + i + 3 * THREAD_NUM ..]] and leaves the window in
    the last [N] slots of the buffer, where the next pass and [status_write]
    expect it. *)
Theorem fourth_phase_sequential
    (dev : device) (bid pos size i : Z) (status W d_data : list Z) :
  1 <= pos <= N - THREAD_NUM ->
  holds (3 * THREAD_NUM - N) status W ->
  0 <= size * bid + i /\ size * bid + i + LARGE_SIZE <= Z.of_nat (length d_data) ->
  exists ph ph',
    uint32_phases pos size bid i !! 3%nat = Some ph /\
    single_phases pos size bid i !! 3%nat = Some ph' /\
    run_phase temper dev bid ph (status, d_data)
    = Ok (phase_status dev bid ph status,
          splice (size * bid + i + 3 * THREAD_NUM)
            (seq_generate temper dev bid pos 256 W).2 d_data) /\
    holds (LARGE_SIZE - N) (phase_status dev bid ph status)
      (seq_generate temper dev bid pos 256 W).1 /\
    run_phase temper_single dev bid ph' (status, d_data)
    = Ok (phase_status dev bid ph' status,
          splice (size * bid + i + 3 * THREAD_NUM)
            (seq_generate temper_single dev bid pos 256 W).2 d_data) /\
    holds (LARGE_SIZE - N) (phase_status dev bid ph' status)
      (seq_generate temper_single dev bid pos 256 W).1.
Proof.
  intros Hpos Hw [Ho1 Ho2].
  destruct (uint32_phases_at_wide pos size bid i Hpos)
    as (ph1 & ph2 & ph3 & ph4 & E & _ & _ & A4).
  exists ph4, ph4. rewrite E. split; [reflexivity|].
  split; [injection E as _ _ _ <-; reflexivity|].
  assert (A4' : phase_at ph4 pos 42 (size * bid + i + 3 * THREAD_NUM))
    by (replace (size * bid + i + 3 * THREAD_NUM) with (size * bid + i + 768)
          by (unfold THREAD_NUM; lia); exact A4).
  destruct (phase_sequential temper dev bid pos ph4 42
              (size * bid + i + 3 * THREAD_NUM) status W d_data) as [R H];
    [ exact Hpos | unfold LARGE_SIZE, THREAD_NUM; lia
    | unfold LARGE_SIZE, THREAD_NUM, N; Z.to_euclidean_division_equations; lia
    | unfold LARGE_SIZE, THREAD_NUM in *; lia | exact A4' | exact Hw | ].
  destruct (phase_sequential temper_single dev bid pos ph4 42
              (size * bid + i + 3 * THREAD_NUM) status W d_data) as [R' H'];
    [ exact Hpos | unfold LARGE_SIZE, THREAD_NUM; lia
    | unfold LARGE_SIZE, THREAD_NUM, N; Z.to_euclidean_division_equations; lia
    | unfold LARGE_SIZE, THREAD_NUM in *; lia | exact A4' | exact Hw | ].
  split; [exact R|]. split; [exact H|]. split; [exact R' | exact H'].
Qed.

Lemma fourth_phase_sequential_witness :
  exists ph ph',
    uint32_phases 470 1024 0 0 !! 3%nat = Some ph /\
    single_phases 470 1024 0 0 !! 3%nat = Some ph' /\
    run_phase temper example_device 0 ph (example_status, malloc 1024)
    = Ok (phase_status example_device 0 ph example_status,
          splice (1024 * 0 + 0 + 3 * THREAD_NUM)
            (seq_generate temper example_device 0 470 256
               (take (Z.to_nat N) (drop (Z.to_nat (3 * THREAD_NUM - N)) example_status))).2
            (malloc 1024)) /\
    holds (LARGE_SIZE - N) (phase_status example_device 0 ph example_status)
      (seq_generate temper example_device 0 470 256
         (take (Z.to_nat N) (drop (Z.to_nat (3 * THREAD_NUM - N)) example_status))).1 /\
    run_phase temper_single example_device 0 ph' (example_status, malloc 1024)
    = Ok (phase_status example_device 0 ph' example_status,
          splice (1024 * 0 + 0 + 3 * THREAD_NUM)
            (seq_generate temper_single example_device 0 470 256
               (take (Z.to_nat N) (drop (Z.to_nat (3 * THREAD_NUM - N)) example_status))).2
            (malloc 1024)) /\
    holds (LARGE_SIZE - N) (phase_status example_device 0 ph' example_status)
      (seq_generate temper_single example_device 0 470 256
         (take (Z.to_nat N) (drop (Z.to_nat (3 * THREAD_NUM - N)) example_status))).1.
Proof.
  apply (fourth_phase_sequential example_device 0 470 1024 0 example_status
           (take (Z.to_nat N) (drop (Z.to_nat (3 * THREAD_NUM - N)) example_status))
           (malloc 1024)).
  - unfold N, THREAD_NUM. lia.
  - apply holds_take_drop; [unfold LARGE_SIZE, THREAD_NUM, N; lia|].
    exact example_status_length.
  - vm_compute. split; discriminate.
Defined.

(** ** What [status_read] and [status_write] do before they overrun *)

Section Copies.

Ltac consts := unfold sh_ok, ds_ok, LARGE_SIZE, THREAD_NUM, N in *.

Lemma scatter_prefix ix (base : Z) (vs a : list Z) :
  0 <= base ->
  (forall t, 0 <= t < Z.of_nat (length vs) -> ix t = base + t) ->
  base + Z.of_nat (length vs) <= Z.of_nat (length a) ->
  scatter ix (zip (seqZ 0 (Z.of_nat (length vs))) vs) a = splice base vs a.
Proof.
  intros Hb Hix Hlen. unfold splice.
  rewrite <- (scatter_segment ix base vs 0 (take (Z.to_nat base) a)
                (take (length vs) (drop (Z.to_nat base) a))
                (drop (Z.to_nat base + length vs) a)).
  - f_equal. rewrite <- drop_drop, !take_drop. reflexivity.
  - lia.
  - exact Hb.
  - intros t Ht. apply Hix. lia.
  - rewrite length_take. lia.
  - rewrite length_take, length_drop. lia.
Qed.

Lemma map_nth_seqZ (d : list Z) (dbase : Z) (n : nat) :
  0 <= dbase -> dbase + Z.of_nat n <= Z.of_nat (length d) ->
  map (fun t => nth (Z.to_nat (dbase + t)) d 0) (seqZ 0 (Z.of_nat n))
  = take n (drop (Z.to_nat dbase) d).
Proof.
  intros Hd Hlen. apply list_eq. intros k.
  change (map ?f ?l) with (f <$> l).
  rewrite list_lookup_fmap.
  destruct (decide (k < n)%nat) as [Hk | Hk].
  - rewrite lookup_seqZ_lt by lia. simpl.
    rewrite lookup_take_lt by lia. rewrite lookup_drop, nth_lookup.
    replace (Z.to_nat (dbase + (0 + Z.of_nat k))) with (Z.to_nat dbase + k)%nat by lia.
    destruct (lookup_lt_is_Some_2 d (Z.to_nat dbase + k) ltac:(lia)) as [x ->].
    reflexivity.
  - rewrite lookup_seqZ_ge by lia. simpl.
    rewrite lookup_take_ge by lia. reflexivity.
Qed.

Lemma read_lane_ok (c : copy) (d : list Z) (t : Z) (st : list Z) :
  guard c t = true -> ds_ok (ds_ix c t) -> sh_ok (sh_ix c t) ->
  read_lane c d t st
  = Ok (<[Z.to_nat (sh_ix c t) := nth (Z.to_nat (ds_ix c t)) d 0]> st).
Proof.
  intros Hg Hd Hs. unfold read_lane. rewrite Hg.
  rewrite ld_ok by exact Hd. rewrite res_bind_ok. apply sto_ok, Hs.
Qed.

Lemma write_lane_ok (c : copy) (st : list Z) (t : Z) (d : list Z) :
  guard c t = true -> ds_ok (ds_ix c t) -> sh_ok (sh_ix c t) ->
  write_lane c st t d
  = Ok (<[Z.to_nat (ds_ix c t) := nth (Z.to_nat (sh_ix c t)) st 0]> d).
Proof.
  intros Hg Hd Hs. unfold write_lane. rewrite Hg.
  rewrite ld_ok by exact Hs. rewrite res_bind_ok. apply sto_ok, Hd.
Qed.

(** The lanes [ts] of one assignment of [status_read], all inside both
    arrays. *)
Lemma read_lanes_scatter (c : copy) (d : list Z) (ts : list Z) (st : list Z) :
  (forall t, t ∈ ts -> guard c t = true /\ ds_ok (ds_ix c t) /\ sh_ok (sh_ix c t)) ->
  for_each (read_lane c d) ts st
  = Ok (scatter (sh_ix c) (zip ts (map (fun t => nth (Z.to_nat (ds_ix c t)) d 0) ts)) st).
Proof.
  revert st. induction ts as [|t ts IH]; intros st H; [reflexivity|].
  destruct (H t) as (Hg & Hd & Hs); [apply elem_of_cons; left; reflexivity|].
  cbn [for_each]. rewrite (read_lane_ok c d t st Hg Hd Hs), res_bind_ok.
  rewrite IH by (intros t' Ht'; apply H, elem_of_cons; right; exact Ht').
  reflexivity.
Qed.

(** The lanes [ts] of one assignment of [status_write]. *)
Lemma write_lanes_scatter (c : copy) (st : list Z) (ts : list Z) (d : list Z) :
  (forall t, t ∈ ts -> guard c t = true /\ ds_ok (ds_ix c t) /\ sh_ok (sh_ix c t)) ->
  for_each (write_lane c st) ts d
  = Ok (scatter (ds_ix c) (zip ts (map (fun t => nth (Z.to_nat (sh_ix c t)) st 0) ts)) d).
Proof.
  revert d. induction ts as [|t ts IH]; intros d H; [reflexivity|].
  destruct (H t) as (Hg & Hd & Hs); [apply elem_of_cons; left; reflexivity|].
  cbn [for_each]. rewrite (write_lane_ok c st t d Hg Hd Hs), res_bind_ok.
  rewrite IH by (intros t' Ht'; apply H, elem_of_cons; right; exact Ht').
  reflexivity.
Qed.

(** One assignment on the lanes [0 .. n-1], with subscripts [sbase + tid]
    and [dbase + tid]. *)
Lemma read_lanes_splice (c : copy) (sbase dbase : Z) (n : nat) (d st : list Z) :
  (forall t, 0 <= t < Z.of_nat n ->
             guard c t = true /\ sh_ix c t = sbase + t /\ ds_ix c t = dbase + t) ->
  0 <= sbase -> sbase + Z.of_nat n <= LARGE_SIZE ->
  0 <= dbase -> dbase + Z.of_nat n <= N ->
  Z.of_nat (length st) = LARGE_SIZE -> Z.of_nat (length d) = N ->
  for_each (read_lane c d) (seqZ 0 (Z.of_nat n)) st
  = Ok (splice sbase (take n (drop (Z.to_nat dbase) d)) st).
Proof.
  intros Hc Hs1 Hs2 Hd1 Hd2 Lst Ld.
  rewrite read_lanes_scatter.
  2:{ intros t Ht. apply elem_of_seqZ in Ht. destruct (Hc t) as (Hg & -> & ->); [lia|].
      consts. repeat split; try assumption; lia. }
  f_equal.
  rewrite (map_ext_in _ (fun t => nth (Z.to_nat (dbase + t)) d 0)).
  2:{ intros t Ht. apply list_elem_of_In, elem_of_seqZ in Ht.
      destruct (Hc t) as (_ & _ & ->); [lia | reflexivity]. }
  rewrite map_nth_seqZ by lia.
  assert (Ln : length (take n (drop (Z.to_nat dbase) d)) = n)
    by (rewrite length_take, length_drop; lia).
  rewrite <- Ln at 1. apply scatter_prefix.
  - exact Hs1.
  - intros t Ht. rewrite Ln in Ht. destruct (Hc t) as (_ & -> & _); [lia | reflexivity].
  - rewrite Ln. lia.
Qed.

Lemma write_lanes_splice (c : copy) (sbase dbase : Z) (n : nat) (st d : list Z) :
  (forall t, 0 <= t < Z.of_nat n ->
             guard c t = true /\ sh_ix c t = sbase + t /\ ds_ix c t = dbase + t) ->
  0 <= sbase -> sbase + Z.of_nat n <= LARGE_SIZE ->
  0 <= dbase -> dbase + Z.of_nat n <= N ->
  Z.of_nat (length st) = LARGE_SIZE -> Z.of_nat (length d) = N ->
  for_each (write_lane c st) (seqZ 0 (Z.of_nat n)) d
  = Ok (splice dbase (take n (drop (Z.to_nat sbase) st)) d).
Proof.
  intros Hc Hs1 Hs2 Hd1 Hd2 Lst Ld.
  rewrite write_lanes_scatter.
  2:{ intros t Ht. apply elem_of_seqZ in Ht. destruct (Hc t) as (Hg & -> & ->); [lia|].
      consts. repeat split; try assumption; lia. }
  f_equal.
  rewrite (map_ext_in _ (fun t => nth (Z.to_nat (sbase + t)) st 0)).
  2:{ intros t Ht. apply list_elem_of_In, elem_of_seqZ in Ht.
      destruct (Hc t) as (_ & -> & _); [lia | reflexivity]. }
  rewrite map_nth_seqZ by lia.
  assert (Ln : length (take n (drop (Z.to_nat sbase) st)) = n)
    by (rewrite length_take, length_drop; lia).
  rewrite <- Ln at 1. apply scatter_prefix.
  - exact Hd1.
  - intros t Ht. rewrite Ln in Ht. destruct (Hc t) as (_ & _ & ->); [lia | reflexivity].
  - rewrite Ln. lia.
Qed.

Lemma three_chunks (d : list Z) :
  length d = 726%nat ->
  take 256 d ++ take 256 (drop 256 d) ++ take 214 (drop 512 d) = d.
Proof.
  intros L. rewrite <- (take_drop 256 d) at 4. f_equal.
  rewrite <- (take_drop 256 (drop 256 d)) at 2. f_equal.
  rewrite drop_drop. simpl. apply take_ge. rewrite length_drop. lia.
Qed.

End Copies.

Lemma read_copy_lanes (c : copy) (sbase dbase : Z) (d st : list Z) :
  (forall t, 0 <= t < Z.of_nat 256 ->
             guard c t = true /\ sh_ix c t = sbase + t /\ ds_ix c t = dbase + t) ->
  0 <= sbase -> sbase + Z.of_nat 256 <= LARGE_SIZE ->
  0 <= dbase -> dbase + Z.of_nat 256 <= N ->
  Z.of_nat (length st) = LARGE_SIZE -> Z.of_nat (length d) = N ->
  for_each (read_lane c d) lanes st
  = Ok (splice sbase (take 256 (drop (Z.to_nat dbase) d)) st).
Proof. exact (read_lanes_splice c sbase dbase 256 d st). Qed.

Lemma write_copy_lanes (c : copy) (sbase dbase : Z) (st d : list Z) :
  (forall t, 0 <= t < Z.of_nat 256 ->
             guard c t = true /\ sh_ix c t = sbase + t /\ ds_ix c t = dbase + t) ->
  0 <= sbase -> sbase + Z.of_nat 256 <= LARGE_SIZE ->
  0 <= dbase -> dbase + Z.of_nat 256 <= N ->
  Z.of_nat (length st) = LARGE_SIZE -> Z.of_nat (length d) = N ->
  for_each (write_lane c st) lanes d
  = Ok (splice dbase (take 256 (drop (Z.to_nat sbase) st)) d).
Proof. exact (write_lanes_splice c sbase dbase 256 st d). Qed.

Lemma lanes_split :
  lanes = seqZ 0 (Z.of_nat 214) ++ seqZ (N - 2 * THREAD_NUM) (3 * THREAD_NUM - N).
Proof. reflexivity. Qed.

Lemma splice_three (a : list Z) (d : list Z) :
  Z.of_nat (length a) = LARGE_SIZE -> length d = 726%nat ->
  splice 810 (take 214 (drop 512 d))
    (splice 554 (take 256 (drop 256 d)) (splice 298 (take 256 d) a))
  = take 298 a ++ d.
Proof.
  intros La Ld. unfold LARGE_SIZE, THREAD_NUM in La.
  assert (L1 : length (take 256 d) = 256%nat) by (rewrite length_take; lia).
  assert (L2 : length (take 256 (drop 256 d)) = 256%nat)
    by (rewrite length_take, length_drop; lia).
  assert (L3 : length (take 214 (drop 512 d)) = 214%nat)
    by (rewrite length_take, length_drop; lia).
  set (A := take 256 d) in *.
  set (B := take 256 (drop 256 d)) in *.
  set (C := take 214 (drop 512 d)) in *.
  replace (splice 554 B (splice 298 A a))
    with (splice (298 + Z.of_nat (length A)) B (splice 298 A a))
    by (rewrite L1; reflexivity).
  rewrite splice_splice by lia.
  replace (splice 810 C (splice 298 (A ++ B) a))
    with (splice (298 + Z.of_nat (length (A ++ B))) C (splice 298 (A ++ B) a))
    by (rewrite length_app, L1, L2; reflexivity).
  rewrite splice_splice by (rewrite ?length_app; lia).
  subst A B C.
  rewrite <- app_assoc, three_chunks by exact Ld.
  unfold splice. rewrite drop_ge by lia. rewrite app_nil_r. reflexivity.
Qed.

Lemma splice_three_back (st : list Z) (d : list Z) :
  Z.of_nat (length st) = LARGE_SIZE -> length d = 726%nat ->
  splice 512 (take 214 (drop 810 st))
    (splice 256 (take 256 (drop 554 st)) (splice 0 (take 256 (drop 298 st)) d))
  = drop 298 st.
Proof.
  intros Ls Ld. unfold LARGE_SIZE, THREAD_NUM in Ls.
  assert (L1 : length (take 256 (drop 298 st)) = 256%nat)
    by (rewrite length_take, length_drop; lia).
  assert (L2 : length (take 256 (drop 554 st)) = 256%nat)
    by (rewrite length_take, length_drop; lia).
  assert (L3 : length (take 214 (drop 810 st)) = 214%nat)
    by (rewrite length_take, length_drop; lia).
  set (A := take 256 (drop 298 st)) in *.
  set (B := take 256 (drop 554 st)) in *.
  set (C := take 214 (drop 810 st)) in *.
  replace (splice 256 B (splice 0 A d))
    with (splice (0 + Z.of_nat (length A)) B (splice 0 A d)) by (rewrite L1; reflexivity).
  rewrite splice_splice by lia.
  replace (splice 512 C (splice 0 (A ++ B) d))
    with (splice (0 + Z.of_nat (length (A ++ B))) C (splice 0 (A ++ B) d))
    by (rewrite length_app, L1, L2; reflexivity).
  rewrite splice_splice by (rewrite ?length_app; lia).
  subst A B C.
  rewrite <- app_assoc.
  replace (drop 554 st) with (drop 256 (drop 298 st)) by (rewrite drop_drop; reflexivity).
  replace (drop 810 st) with (drop 512 (drop 298 st)) by (rewrite drop_drop; reflexivity).
  rewrite three_chunks by (rewrite length_drop; lia).
  unfold splice. change (Z.to_nat 0) with 0%nat. rewrite take_0.
  rewrite (drop_ge d) by (rewrite length_drop; lia).
  rewrite app_nil_r. reflexivity.
Qed.

(** X4.  On a buffer of [LARGE_SIZE] words and a saved state of [N] words,
    the lanes of [status_read] whose subscripts lie inside both arrays, all
    lanes of the first two assignments and the lanes below
    [N - 2 * THREAD_NUM] = 214 of the third, copy exactly the [N] saved
    words, in order, into the last [N] slots of the buffer and leave the
    first [LARGE_SIZE - N] slots as they were.  Every other lane of the third
    assignment, 214 to 255, reads [d_status[bid].status[2 * THREAD_NUM + tid]]
    past the saved state. *)
Theorem status_read_in_bounds_lanes (status d_status : list Z) :
  Z.of_nat (length status) = LARGE_SIZE ->
  Z.of_nat (length d_status) = N ->
  exists c1 c2 c3, status_read_copies = [c1; c2; c3] /\
    (s1 ← for_each (read_lane c1 d_status) lanes status;
     s2 ← for_each (read_lane c2 d_status) lanes s1;
     for_each (read_lane c3 d_status) (seqZ 0 (N - 2 * THREAD_NUM)) s2)
    = Ok (take (Z.to_nat (LARGE_SIZE - N)) status ++ d_status) /\
    (forall tid st, N - 2 * THREAD_NUM <= tid < THREAD_NUM ->
       read_lane c3 d_status tid st
       = Fault (OutOfBounds DStatus (2 * THREAD_NUM + tid))).
Proof.
  intros Ls Ld. do 3 eexists. split; [reflexivity|]. split.
  - set (s1 := splice 298 (take 256 (drop (Z.to_nat 0) d_status)) status).
    set (s2 := splice 554 (take 256 (drop (Z.to_nat 256) d_status)) s1).
    set (s3 := splice 810 (take 214 (drop (Z.to_nat 512) d_status)) s2).
    assert (L1 : Z.of_nat (length s1) = LARGE_SIZE).
    { unfold s1. rewrite length_splice; [exact Ls | lia |].
      rewrite length_take, length_drop. unfold LARGE_SIZE, THREAD_NUM, N in *. lia. }
    assert (L2 : Z.of_nat (length s2) = LARGE_SIZE).
    { unfold s2. rewrite length_splice; [exact L1 | lia |].
      rewrite length_take, length_drop. unfold LARGE_SIZE, THREAD_NUM, N in *. lia. }
    rewrite (read_copy_lanes _ 298 0 d_status status); fold s1.
    2:{ intros t Ht. cbn [guard sh_ix ds_ix]. unfold LARGE_SIZE, THREAD_NUM, N.
        repeat split; lia. }
    2-5: unfold LARGE_SIZE, THREAD_NUM, N; lia.
    2-3: assumption.
    rewrite res_bind_ok.
    rewrite (read_copy_lanes _ 554 256 d_status s1); fold s2.
    2:{ intros t Ht. cbn [guard sh_ix ds_ix]. unfold LARGE_SIZE, THREAD_NUM, N.
        repeat split; lia. }
    2-5: unfold LARGE_SIZE, THREAD_NUM, N; lia.
    2-3: assumption.
    rewrite res_bind_ok.
    change (N - 2 * THREAD_NUM) with (Z.of_nat 214).
    rewrite (read_lanes_splice _ 810 512 214 d_status s2); fold s3.
    2:{ intros t Ht. cbn [guard sh_ix ds_ix]. unfold LARGE_SIZE, THREAD_NUM, N.
        repeat split; lia. }
    2-5: unfold LARGE_SIZE, THREAD_NUM, N; lia.
    2-3: assumption.
    f_equal. unfold s3, s2, s1.
    change (Z.to_nat 0) with 0%nat. rewrite drop_0.
    change (Z.to_nat 256) with 256%nat. change (Z.to_nat 512) with 512%nat.
    rewrite splice_three; [reflexivity | exact Ls | unfold N in Ld; lia].
  - intros tid st Ht. unfold read_lane. cbn [guard ds_ix sh_ix].
    replace (tid <? N - THREAD_NUM) with true
      by (unfold N, THREAD_NUM in *; lia).
    rewrite ld_fault by (unfold N, THREAD_NUM in *; lia). reflexivity.
Qed.

Lemma status_read_in_bounds_lanes_witness :
  exists c1 c2 c3, status_read_copies = [c1; c2; c3] /\
    (s1 ← for_each (read_lane c1 example_d_status) lanes example_status;
     s2 ← for_each (read_lane c2 example_d_status) lanes s1;
     for_each (read_lane c3 example_d_status) (seqZ 0 (N - 2 * THREAD_NUM)) s2)
    = Ok (take (Z.to_nat (LARGE_SIZE - N)) example_status ++ example_d_status) /\
    (forall tid st, N - 2 * THREAD_NUM <= tid < THREAD_NUM ->
       read_lane c3 example_d_status tid st
       = Fault (OutOfBounds DStatus (2 * THREAD_NUM + tid))).
Proof.
  apply (status_read_in_bounds_lanes example_status example_d_status).
  - reflexivity.
  - reflexivity.
Defined.

(** X5.  On a buffer of [LARGE_SIZE] words and a saved state of [N] words,
    the lanes of [status_write] whose subscripts lie inside both arrays, all
    lanes of the first two assignments and the lanes below 214 of the third,
    replace the saved state by exactly the last [N] slots of the buffer, in
    order; on a buffer whose last [N] slots are a state [d_status0] they
    write [d_status0] back.  Every other lane of the third assignment, 214
    to 255, reads [status[6 * THREAD_NUM - N + tid]] past the buffer. *)
Theorem status_write_in_bounds_lanes (d_status status d_status0 : list Z) :
  Z.of_nat (length status) = LARGE_SIZE ->
  Z.of_nat (length d_status) = N ->
  Z.of_nat (length d_status0) = N ->
  exists c1 c2 c3, status_write_copies = [c1; c2; c3] /\
    (d1 ← for_each (write_lane c1 status) lanes d_status;
     d2 ← for_each (write_lane c2 status) lanes d1;
     for_each (write_lane c3 status) (seqZ 0 (N - 2 * THREAD_NUM)) d2)
    = Ok (drop (Z.to_nat (LARGE_SIZE - N)) status) /\
    (d1 ← for_each (write_lane c1 (take (Z.to_nat (LARGE_SIZE - N)) status ++ d_status0))
            lanes d_status;
     d2 ← for_each (write_lane c2 (take (Z.to_nat (LARGE_SIZE - N)) status ++ d_status0))
            lanes d1;
     for_each (write_lane c3 (take (Z.to_nat (LARGE_SIZE - N)) status ++ d_status0))
       (seqZ 0 (N - 2 * THREAD_NUM)) d2)
    = Ok d_status0 /\
    (forall tid d, N - 2 * THREAD_NUM <= tid < THREAD_NUM ->
       write_lane c3 status tid d
       = Fault (OutOfBounds Shared (6 * THREAD_NUM - N + tid))).
Proof.
  intros Ls Ld Ld0.
  assert (Hgen : forall st, Z.of_nat (length st) = LARGE_SIZE ->
            (d1 ← for_each (write_lane
                              {| guard := fun tid => true;
                                 sh_ix := fun tid => LARGE_SIZE - N + tid;
                                 ds_ix := fun tid => tid |} st) lanes d_status;
             d2 ← for_each (write_lane
                              {| guard := fun tid => true;
                                 sh_ix := fun tid => LARGE_SIZE - N + THREAD_NUM + tid;
                                 ds_ix := fun tid => THREAD_NUM + tid |} st) lanes d1;
             for_each (write_lane
                         {| guard := fun tid => tid <? N - THREAD_NUM;
                            sh_ix := fun tid => 6 * THREAD_NUM - N + tid;
                            ds_ix := fun tid => 2 * THREAD_NUM + tid |} st)
               (seqZ 0 (N - 2 * THREAD_NUM)) d2)
            = Ok (drop (Z.to_nat (LARGE_SIZE - N)) st)).
  { intros st Lst.
    set (d1 := splice 0 (take 256 (drop (Z.to_nat 298) st)) d_status).
    set (d2 := splice 256 (take 256 (drop (Z.to_nat 554) st)) d1).
    set (d3 := splice 512 (take 214 (drop (Z.to_nat 810) st)) d2).
    assert (L1 : Z.of_nat (length d1) = N).
    { unfold d1. rewrite length_splice; [exact Ld | lia |].
      rewrite length_take, length_drop. unfold LARGE_SIZE, THREAD_NUM, N in *. lia. }
    assert (L2 : Z.of_nat (length d2) = N).
    { unfold d2. rewrite length_splice; [exact L1 | lia |].
      rewrite length_take, length_drop. unfold LARGE_SIZE, THREAD_NUM, N in *. lia. }
    rewrite (write_copy_lanes _ 298 0 st d_status); fold d1.
    2:{ intros t Ht. cbn [guard sh_ix ds_ix]. unfold LARGE_SIZE, THREAD_NUM, N.
        repeat split; lia. }
    2-5: unfold LARGE_SIZE, THREAD_NUM, N; lia.
    2-3: assumption.
    rewrite res_bind_ok.
    rewrite (write_copy_lanes _ 554 256 st d1); fold d2.
    2:{ intros t Ht. cbn [guard sh_ix ds_ix]. unfold LARGE_SIZE, THREAD_NUM, N.
        repeat split; lia. }
    2-5: unfold LARGE_SIZE, THREAD_NUM, N; lia.
    2-3: assumption.
    rewrite res_bind_ok.
    change (N - 2 * THREAD_NUM) with (Z.of_nat 214).
    rewrite (write_lanes_splice _ 810 512 214 st d2); fold d3.
    2:{ intros t Ht. cbn [guard sh_ix ds_ix]. unfold LARGE_SIZE, THREAD_NUM, N.
        repeat split; lia. }
    2-5: unfold LARGE_SIZE, THREAD_NUM, N; lia.
    2-3: assumption.
    f_equal. unfold d3, d2, d1.
    change (Z.to_nat 298) with 298%nat. change (Z.to_nat 554) with 554%nat.
    change (Z.to_nat 810) with 810%nat.
    rewrite splice_three_back; [reflexivity | exact Lst | unfold N in Ld; lia]. }
  do 3 eexists. split; [reflexivity|]. split; [|split].
  - apply Hgen, Ls.
  - rewrite Hgen.
    + rewrite drop_app_length'; [reflexivity|].
      rewrite length_take. unfold LARGE_SIZE, THREAD_NUM, N in *. lia.
    + rewrite length_app, length_take. unfold LARGE_SIZE, THREAD_NUM, N in *. lia.
  - intros tid d Ht. unfold write_lane. cbn [guard ds_ix sh_ix].
    replace (tid <? N - THREAD_NUM) with true
      by (unfold N, THREAD_NUM in *; lia).
    rewrite ld_fault by (unfold LARGE_SIZE, N, THREAD_NUM in *; lia). reflexivity.
Qed.

Lemma status_write_in_bounds_lanes_witness :
  exists c1 c2 c3, status_write_copies = [c1; c2; c3] /\
    (d1 ← for_each (write_lane c1 example_status) lanes example_d_status;
     d2 ← for_each (write_lane c2 example_status) lanes d1;
     for_each (write_lane c3 example_status) (seqZ 0 (N - 2 * THREAD_NUM)) d2)
    = Ok (drop (Z.to_nat (LARGE_SIZE - N)) example_status) /\
    (d1 ← for_each (write_lane c1
                      (take (Z.to_nat (LARGE_SIZE - N)) example_status ++ example_d_status))
            lanes example_d_status;
     d2 ← for_each (write_lane c2
                      (take (Z.to_nat (LARGE_SIZE - N)) example_status ++ example_d_status))
            lanes d1;
     for_each (write_lane c3
                 (take (Z.to_nat (LARGE_SIZE - N)) example_status ++ example_d_status))
       (seqZ 0 (N - 2 * THREAD_NUM)) d2)
    = Ok example_d_status /\
    (forall tid d, N - 2 * THREAD_NUM <= tid < THREAD_NUM ->
       write_lane c3 example_status tid d
       = Fault (OutOfBounds Shared (6 * THREAD_NUM - N + tid))).
Proof.
  apply (status_write_in_bounds_lanes example_d_status example_status example_d_status).
  - reflexivity.
  - reflexivity.
  - reflexivity.
Defined.

(** ** Which bits the device functions look at *)

Lemma land_mask (X : Z) :
  Z.land X mask = Z.shiftl (Z.land (Z.shiftr X 23) (Z.ones 9)) 23.
Proof.
  change mask with (Z.shiftl (Z.ones 9) 23).
  apply Z.bits_inj'. intros i Hi.
  rewrite Z.land_spec, !Z.shiftl_spec by exact Hi.
  rewrite Z.land_spec.
  destruct (Z.lt_ge_cases i 23) as [Hlt | Hge].
  - rewrite (Z.testbit_neg_r (Z.ones 9)) by lia.
    rewrite !andb_false_r. reflexivity.
  - rewrite Z.shiftr_spec by lia.
    replace (i - 23 + 23) with i by lia. reflexivity.
Qed.

(** X6.  [para_rec] looks at the upper nine bits of [X1] only: two words
    that agree above bit 22 give the same result, whatever the tables. *)
Theorem para_rec_upper_bits_of_X1 (dev : device) (X1 X1' X2 Y bid : Z) :
  Z.shiftr X1 23 = Z.shiftr X1' 23 ->
  para_rec dev X1 X2 Y bid = para_rec dev X1' X2 Y bid.
Proof.
  intros H. unfold para_rec. rewrite (land_mask X1), (land_mask X1'), H. reflexivity.
Qed.

Lemma para_rec_upper_bits_of_X1_witness :
  para_rec example_device 0xdead0000 0x01234567 0x89abcdef 0
  = para_rec example_device 0xdeadbeef 0x01234567 0x89abcdef 0.
Proof.
  apply (para_rec_upper_bits_of_X1 example_device 0xdead0000 0xdeadbeef).
  reflexivity.
Defined.

Lemma reduce_nibble (T : Z) :
  Z.land (spec_reduce T) 0x0f
  = Z.lxor (Z.lxor (Z.land T 15) (Z.land (Z.shiftr T 8) 15))
           (Z.lxor (Z.land (Z.shiftr T 16) 15) (Z.land (Z.shiftr T 24) 15)).
Proof.
  unfold spec_reduce. apply Z.bits_inj'. intros i Hi.
  rewrite !Z.lxor_spec, !Z.land_spec, !Z.lxor_spec, !Z.shiftr_spec by lia.
  rewrite !Z.lxor_spec, !Z.shiftr_spec by lia.
  replace (i + 8 + 16) with (i + 24) by lia.
  destruct (Z.testbit 15 i), (Z.testbit T i), (Z.testbit T (i + 8)),
    (Z.testbit T (i + 16)), (Z.testbit T (i + 24)); reflexivity.
Qed.

(** X7.  Both temperings look at [T] through one nibble only, the xor of
    the low nibbles of its four bytes: that nibble selects the table entry. *)
Theorem temper_index_nibble (dev : device) (V T bid : Z) :
  temper dev V T bid
  = Z.lxor V
      (tex1Dfetch (tex_temper_ref dev)
         (bid * 16 +
          Z.lxor (Z.lxor (Z.land T 15) (Z.land (Z.shiftr T 8) 15))
                 (Z.lxor (Z.land (Z.shiftr T 16) 15) (Z.land (Z.shiftr T 24) 15)))) /\
  temper_single dev V T bid
  = Z.lxor (Z.shiftr V 9)
      (tex1Dfetch (tex_single_ref dev)
         (bid * 16 +
          Z.lxor (Z.lxor (Z.land T 15) (Z.land (Z.shiftr T 8) 15))
                 (Z.lxor (Z.land (Z.shiftr T 16) 15) (Z.land (Z.shiftr T 24) 15)))).
Proof.
  rewrite <- reduce_nibble. split; reflexivity.
Qed.

(** X8.  For a fixed helper word [T], [temper] is its own inverse on [V]:
    tempering a tempered word gives the word back, so no two words are
    tempered to the same output. *)
Theorem temper_involution (dev : device) (V V' T bid : Z) :
  temper dev (temper dev V T bid) T bid = V /\
  (temper dev V T bid = temper dev V' T bid -> V = V').
Proof.
  assert (Inv : forall W, temper dev (temper dev W T bid) T bid = W).
  { intros W. unfold temper. cbv zeta.
    rewrite Z.lxor_assoc, Z.lxor_nilpotent, Z.lxor_0_r. reflexivity. }
  split; [apply Inv|].
  intros H. rewrite <- (Inv V), <- (Inv V'), H. reflexivity.
Qed.

Lemma temper_involution_witness :
  temper example_device (temper example_device 0xdeadbeef 0x89abcdef 0) 0x89abcdef 0
  = 0xdeadbeef /\
  (temper example_device 0xdeadbeef 0x89abcdef 0
   = temper example_device 0xdeadbeef 0x89abcdef 0 -> 0xdeadbeef = 0xdeadbeef).
Proof.
  apply (temper_involution example_device 0xdeadbeef 0xdeadbeef 0x89abcdef 0).
Defined.

(** ** The adjustment of [num_data] in [main] *)

Lemma main_num_data_any (num_data block_num : Z) :
  1 <= block_num ->
  main_num_data num_data block_num mod (LARGE_SIZE * block_num) = 0 /\
  num_data <= main_num_data num_data block_num
           < num_data + 2 * (LARGE_SIZE * block_num) /\
  (Z.rem num_data (LARGE_SIZE * block_num) <> 0 ->
   main_num_data num_data block_num
   = LARGE_SIZE * block_num * (Z.quot num_data (LARGE_SIZE * block_num) + 1)).
Proof.
  intros Hb. unfold main_num_data. cbv zeta.
  set (u := LARGE_SIZE * block_num).
  assert (Hu : 0 < u) by (unfold u, LARGE_SIZE, THREAD_NUM; lia).
  pose proof (Z.quot_rem' num_data u) as Hq.
  assert (Hr : - u < Z.rem num_data u < u)
    by (pose proof (Z.rem_bound_abs num_data u ltac:(lia)); lia).
  assert (Hs : 0 <= num_data -> 0 <= Z.rem num_data u)
    by (intros Hn; apply Z.rem_nonneg; lia).
  assert (Hs' : num_data < 0 -> Z.rem num_data u <= 0)
    by (intros Hn; apply Z.rem_nonpos; lia).
  destruct (Z.eqb_spec (Z.rem num_data u) 0) as [E | E]; cbn [negb].
  - split; [|split; [lia | contradiction]].
    rewrite Hq, E, Z.add_0_r, Z.mul_comm. apply Z.mod_mul. lia.
  - assert (Em : num_data + u - Z.rem num_data u = u * (Z.quot num_data u + 1)) by lia.
    split; [|split; [|intros _; exact Em]].
    + rewrite Em, Z.mul_comm. apply Z.mod_mul. lia.
    + destruct (Z.le_gt_cases 0 num_data) as [Hn | Hn];
        [specialize (Hs Hn) | specialize (Hs' Hn)]; lia.
Qed.

(** X9.  For every [int] [num_data], negative ones included, and
    [block_num] at least 1, as long as [num_data + num_unit] stays inside
    [int], the adjustment in [main] yields a multiple of
    [LARGE_SIZE * block_num] that is not below [num_data], and adjusting
    again changes nothing.  A negative [num_data] that is not such a multiple
    is not taken to the nearest multiple above it, [q * unit] with [q] the
    quotient rounded towards zero, but to the next one, [(q + 1) * unit]: a
    request of -1 becomes a request of [LARGE_SIZE * block_num] words. *)
Theorem main_num_data_rounds (num_data block_num : Z) :
  1 <= block_num ->
  - INT_MAX - 1 <= num_data ->
  num_data + LARGE_SIZE * block_num <= INT_MAX ->
  main_num_data num_data block_num mod (LARGE_SIZE * block_num) = 0 /\
  num_data <= main_num_data num_data block_num /\
  main_num_data (main_num_data num_data block_num) block_num
  = main_num_data num_data block_num /\
  (num_data < 0 -> Z.rem num_data (LARGE_SIZE * block_num) <> 0 ->
   num_data < LARGE_SIZE * block_num * Z.quot num_data (LARGE_SIZE * block_num)
            < main_num_data num_data block_num /\
   main_num_data num_data block_num
   = LARGE_SIZE * block_num * (Z.quot num_data (LARGE_SIZE * block_num) + 1)) /\
  main_num_data (-1) block_num = LARGE_SIZE * block_num.
Proof.
  intros Hb _ _.
  destruct (main_num_data_any num_data block_num Hb) as (Hm & Hr & Hq).
  assert (Hu : 0 < LARGE_SIZE * block_num) by (unfold LARGE_SIZE, THREAD_NUM; lia).
  split; [exact Hm|]. split; [lia|]. split; [|split].
  - unfold main_num_data at 1. cbv zeta.
    replace (Z.rem (main_num_data num_data block_num) (LARGE_SIZE * block_num)) with 0;
      [reflexivity|].
    symmetry. apply Z.rem_divide; [lia|]. apply Z.mod_divide; [lia | exact Hm].
  - intros Hn Hne. split; [|apply Hq, Hne].
    rewrite (Hq Hne).
    pose proof (Z.quot_rem' num_data (LARGE_SIZE * block_num)) as E.
    pose proof (Z.rem_bound_abs num_data (LARGE_SIZE * block_num) ltac:(lia)).
    pose proof (Z.rem_nonpos num_data (LARGE_SIZE * block_num) ltac:(lia) ltac:(lia)).
    lia.
  - unfold main_num_data. cbv zeta.
    assert (Z.rem (-1) (LARGE_SIZE * block_num) = -1) as ->.
    { change (-1) with (- (1)). rewrite Z.rem_opp_l by lia.
      rewrite Z.rem_small by (unfold LARGE_SIZE, THREAD_NUM; lia). reflexivity. }
    cbn [Z.eqb negb]. lia.
Qed.

Lemma main_num_data_rounds_witness :
  main_num_data (-5) 3 mod (LARGE_SIZE * 3) = 0 /\
  -5 <= main_num_data (-5) 3 /\
  main_num_data (main_num_data (-5) 3) 3 = main_num_data (-5) 3 /\
  (-5 < 0 -> Z.rem (-5) (LARGE_SIZE * 3) <> 0 ->
   -5 < LARGE_SIZE * 3 * Z.quot (-5) (LARGE_SIZE * 3) < main_num_data (-5) 3 /\
   main_num_data (-5) 3 = LARGE_SIZE * 3 * (Z.quot (-5) (LARGE_SIZE * 3) + 1)) /\
  main_num_data (-1) 3 = LARGE_SIZE * 3.
Proof.
  apply (main_num_data_rounds (-5) 3).
  - lia.
  - unfold INT_MAX. lia.
  - unfold INT_MAX, LARGE_SIZE, THREAD_NUM. lia.
Defined.

(** ** Printing the output *)

Lemma row_nth (array : list Z) (base : Z) :
  0 <= base -> base + 5 <= Z.of_nat (length array) ->
  [nth (Z.to_nat base) array 0; nth (Z.to_nat (base + 1)) array 0;
   nth (Z.to_nat (base + 2)) array 0; nth (Z.to_nat (base + 3)) array 0;
   nth (Z.to_nat (base + 4)) array 0] = row array base.
Proof.
  intros Hb Hlen. unfold row.
  assert (H : forall c : nat,
             nth (Z.to_nat (base + Z.of_nat c)) array 0
             = nth c (drop (Z.to_nat base) array) 0).
  { intros c. rewrite !nth_lookup, lookup_drop. do 2 f_equal. lia. }
  pose proof (H 0%nat) as H0. pose proof (H 1%nat) as H1. pose proof (H 2%nat) as H2.
  pose proof (H 3%nat) as H3. pose proof (H 4%nat) as H4.
  change (Z.of_nat 0) with 0 in H0. change (Z.of_nat 1) with 1 in H1.
  change (Z.of_nat 2) with 2 in H2. change (Z.of_nat 3) with 3 in H3.
  change (Z.of_nat 4) with 4 in H4. rewrite Z.add_0_r in H0.
  rewrite H0, H1, H2, H3, H4.
  assert (L : (5 <= length (drop (Z.to_nat base) array))%nat)
    by (rewrite length_drop; lia).
  destruct (drop (Z.to_nat base) array) as [|a0 [|a1 [|a2 [|a3 [|a4 rest]]]]];
    simpl in L; try lia.
  reflexivity.
Qed.

Lemma print_row_ok (array : list Z) (base : Z) (printed : list Z) :
  0 <= base -> base + 5 <= Z.of_nat (length array) ->
  print_row array base printed = Ok (printed ++ row array base).
Proof.
  intros Hb Hlen. unfold print_row.
  assert (B : forall c, 0 <= c < 5 ->
                in_bounds (Z.of_nat (length array)) (base + c) = true)
    by (intros c Hc; unfold in_bounds; lia).
  cbn [forallb]. rewrite <- (Z.add_0_r base) at 1.
  rewrite !B by lia. cbn [andb map].
  rewrite row_nth by assumption. reflexivity.
Qed.

(** A row that starts before the array or has fewer than five words left. *)
Lemma print_row_outside (array : list Z) (base : Z) (printed : list Z) :
  base < 0 \/ Z.of_nat (length array) < base + 5 ->
  print_row array base printed = Fault (OutOfBounds Host base).
Proof.
  intros H. unfold print_row.
  replace (forallb (in_bounds (Z.of_nat (length array)))
             [base; base + 1; base + 2; base + 3; base + 4]) with false;
    [reflexivity|].
  symmetry. apply not_true_is_false. intros F.
  cbn [forallb] in F. unfold in_bounds in F. lia.
Qed.

Lemma for_each_append {T : Type} (f : T -> list Z -> res (list Z)) (g : T -> list Z)
    (l : list T) (acc : list Z) :
  (forall i acc, i ∈ l -> f i acc = Ok (acc ++ g i)) ->
  for_each f l acc = Ok (acc ++ concat (map g l)).
Proof.
  revert acc. induction l as [|i l IH]; intros acc H; simpl.
  - rewrite app_nil_r. reflexivity.
  - rewrite H by (apply elem_of_cons; left; reflexivity). rewrite res_bind_ok.
    rewrite IH by (intros j a Hj; apply H, elem_of_cons; right; exact Hj).
    rewrite <- app_assoc. reflexivity.
Qed.

(** X10.  When the array holds [size] words, [block] is at least 1 and
    [size / block] at least 5, [print_uint32_array] reads inside the array
    only and prints, in this order, the first five words, for every block
    after the first the five words before and the five words from its start
    [(size / block) * i], and the last five words. *)
Theorem print_uint32_array_rows (array : list Z) (size block : Z) :
  1 <= block ->
  5 <= Z.quot size block ->
  Z.of_nat (length array) = size ->
  print_uint32_array array size block
  = Ok (row array 0
        ++ concat (map (fun i => row array (Z.quot size block * i - 5)
                                 ++ row array (Z.quot size block * i))
                       (seqZ 1 (block - 1)))
        ++ row array (size - 5)).
Proof.
  intros Hblock Hb Hlen.
  assert (Hsize : Z.quot size block * block <= size).
  { pose proof (Z.quot_rem' size block) as E.
    assert (0 <= size).
    { destruct (Z.le_gt_cases 0 size) as [H | H]; [exact H|].
      pose proof (Z.quot_opp_l size block ltac:(lia)).
      assert (0 <= Z.quot (- size) block) by (apply Z.quot_pos; lia). lia. }
    pose proof (Z.rem_nonneg size block ltac:(lia) ltac:(lia)). lia. }
  unfold print_uint32_array.
  destruct (Z.eqb_spec block 0) as [E0 | _]; [lia|]. cbv zeta.
  set (b := Z.quot size block) in *.
  change (for_step 1 5 5 0 (fun j => print_row array j) [])
    with (s' ← print_row array 0 []; Ok s').
  rewrite print_row_ok by lia. rewrite !res_bind_ok.
  rewrite (for_each_append _ (fun i => row array (b * i - 5) ++ row array (b * i))).
  2:{ intros i acc Hi. apply elem_of_seqZ in Hi.
      change (for_step 2 5 5 (-5) (fun j => print_row array (b * i + j)) acc)
        with (s1 ← print_row array (b * i + -5) acc;
              s2 ← print_row array (b * i + (-5 + 5)) s1; Ok s2).
      assert (b * i + 5 <= size) by nia.
      assert (5 <= b * i) by nia.
      rewrite print_row_ok by lia. rewrite res_bind_ok.
      rewrite print_row_ok by lia. rewrite res_bind_ok.
      rewrite <- app_assoc. do 3 f_equal; f_equal; lia. }
  rewrite res_bind_ok.
  change (for_step 1 5 0 (-5) (fun j => print_row array (size + j)) ?s)
    with (s' ← print_row array (size + -5) s; Ok s').
  assert (5 <= size) by nia.
  cbn [for_step]. change (-5 <? 0) with true. cbv iota.
  rewrite print_row_ok by lia. rewrite res_bind_ok.
  change (-5 + 5 <? 0) with false. cbv iota.
  rewrite <- app_assoc. reflexivity.
Qed.

Lemma print_uint32_array_rows_witness :
  print_uint32_array (seqZ 100 30) 30 3
  = Ok (row (seqZ 100 30) 0
        ++ concat (map (fun i => row (seqZ 100 30) (Z.quot 30 3 * i - 5)
                                 ++ row (seqZ 100 30) (Z.quot 30 3 * i))
                       (seqZ 1 (3 - 1)))
        ++ row (seqZ 100 30) (30 - 5)).
Proof.
  apply (print_uint32_array_rows (seqZ 100 30) 30 3).
  - lia.
  - vm_compute. discriminate.
  - reflexivity.
Defined.

(** X11.  When the array holds [size] words and [block] is at least 1 but
    [size / block] is less than 5, [print_uint32_array] uses a subscript
    outside the array: in its first row when there are fewer than five
    words, and otherwise in the row of the five words before the start
    [size / block] of the second block, which begins at a negative
    subscript. *)
Theorem print_uint32_array_short (array : list Z) (size block : Z) :
  1 <= block ->
  0 <= size ->
  Z.quot size block < 5 ->
  Z.of_nat (length array) = size ->
  print_uint32_array array size block
  = Fault (OutOfBounds Host (if size <? 5 then 0 else Z.quot size block - 5)).
Proof.
  intros Hblock Hsize Hb Hlen.
  unfold print_uint32_array.
  destruct (Z.eqb_spec block 0) as [E0 | _]; [lia|]. cbv zeta.
  set (b := Z.quot size block) in *.
  change (for_step 1 5 5 0 (fun j => print_row array j) [])
    with (s' ← print_row array 0 []; Ok s').
  destruct (Z.ltb_spec size 5) as [Hs | Hs].
  - rewrite print_row_outside by lia. reflexivity.
  - rewrite print_row_ok by lia. rewrite !res_bind_ok.
    assert (Hblock2 : 2 <= block).
    { destruct (Z.eq_dec block 1) as [-> | Hne]; [|lia].
      unfold b in Hb. rewrite Z.quot_1_r in Hb. lia. }
    assert (H0 : 0 <= b) by (apply Z.quot_pos; lia).
    rewrite (seqZ_cons 1) by lia. cbn [for_each].
    change (for_step 2 5 5 (-5) (fun j => print_row array (b * 1 + j)) ?acc)
      with (s1 ← print_row array (b * 1 + -5) acc;
            s2 ← print_row array (b * 1 + (-5 + 5)) s1; Ok s2).
    rewrite print_row_outside by lia.
    cbn [mbind res_bind]. do 2 f_equal. lia.
Qed.

Lemma print_uint32_array_short_witness :
  print_uint32_array (seqZ 100 8) 8 2
  = Fault (OutOfBounds Host (if 8 <? 5 then 0 else Z.quot 8 2 - 5)).
Proof.
  apply (print_uint32_array_short (seqZ 100 8) 8 2).
  - lia.
  - lia.
  - vm_compute. reflexivity.
  - reflexivity.
Defined.

(** ** The arguments of [main] *)

(** X12.  Whenever the argument handling of [main] goes on to load the
    device and generate, there were at least two arguments besides the
    program name, [block_num] lies between 1 and [BLOCK_NUM_MAX], so that the
    parameters fit the constant tables, and the [num_data] it passes on is a
    multiple of [LARGE_SIZE * block_num], so that every block is asked for a
    multiple of [LARGE_SIZE] words; the sum of the adjustment stayed inside
    [int]. *)
Theorem main_generates_valid_request
    {arg : Type} (strtol : arg -> Z * bool) (argv : list arg) (block_num num_data : Z) :
  main_arguments strtol argv = Generating block_num num_data ->
  (3 <= length argv)%nat /\
  1 <= block_num <= BLOCK_NUM_MAX /\
  num_data mod (LARGE_SIZE * block_num) = 0 /\
  Z.quot num_data block_num mod LARGE_SIZE = 0.
Proof.
  unfold main_arguments. intros H.
  destruct (Z.leb_spec 2 (Z.of_nat (length argv))) as [Hargc | Hargc]; [|discriminate H].
  destruct (argv !! 1%nat) as [a1|] eqn:E1; [|discriminate H].
  destruct (strtol a1) as [b errno1]. destruct errno1; [discriminate H|].
  destruct (Z.ltb_spec b 1) as [Hb1 | Hb1]; [discriminate H|].
  destruct (Z.ltb_spec BLOCK_NUM_MAX b) as [Hb2 | Hb2]; [discriminate H|].
  cbn [orb] in H.
  destruct (argv !! 2%nat) as [a2|] eqn:E2; [|discriminate H].
  destruct (strtol a2) as [n errno2]. destruct errno2; [discriminate H|].
  destruct (negb (Z.rem n (LARGE_SIZE * b) =? 0) && (INT_MAX <? n + LARGE_SIZE * b));
    [discriminate H|].
  injection H as <- <-.
  apply lookup_lt_Some in E2.
  destruct (main_num_data_any n b Hb1) as (Hm & _ & _).
  split; [lia|]. split; [lia|]. split; [exact Hm|].
  assert (HL : 0 < LARGE_SIZE) by (unfold LARGE_SIZE, THREAD_NUM; lia).
  apply Z.mod_divide in Hm; [|lia]. destruct Hm as [k Hk].
  rewrite Hk. replace (k * (LARGE_SIZE * b)) with (k * LARGE_SIZE * b) by lia.
  rewrite Z.quot_mul by lia. apply Z.mod_mul. lia.
Qed.

Lemma main_generates_valid_request_witness :
  (3 <= length [0%Z; 81%Z; 10000000%Z])%nat /\
  1 <= 81 <= BLOCK_NUM_MAX /\
  10036224 mod (LARGE_SIZE * 81) = 0 /\
  Z.quot 10036224 81 mod LARGE_SIZE = 0.
Proof.
  apply (main_generates_valid_request (fun z : Z => (z, false)) [0; 81; 10000000]
           81 10036224).
  reflexivity.
Defined.

(** X13.  Called with one argument, a valid [block_num], [main] goes on to
    read the second one: it hands [argv[2]], the null pointer that ends
    [argv], to [strtol].  Called without arguments, or with a [block_num]
    outside 1 to [BLOCK_NUM_MAX], it returns 1 before that. *)
Theorem main_reads_missing_argument
    {arg : Type} (strtol : arg -> Z * bool) (a0 a1 : arg) (rest : list arg)
    (block_num : Z) :
  strtol a1 = (block_num, false) ->
  main_arguments strtol [a0] = Returned 1 /\
  (1 <= block_num <= BLOCK_NUM_MAX ->
   main_arguments strtol [a0; a1] = NullArgument) /\
  (block_num < 1 \/ BLOCK_NUM_MAX < block_num ->
   main_arguments strtol (a0 :: a1 :: rest) = Returned 1).
Proof.
  intros E. split; [reflexivity|]. split.
  - intros [H1 H2]. unfold main_arguments. cbn [length lookup list_lookup].
    change (2 <=? Z.of_nat 2) with true. cbv iota. rewrite E.
    destruct (Z.ltb_spec block_num 1); [lia|].
    destruct (Z.ltb_spec BLOCK_NUM_MAX block_num); [lia|]. reflexivity.
  - intros H. unfold main_arguments.
    destruct (Z.leb_spec 2 (Z.of_nat (length (a0 :: a1 :: rest)))) as [_ | Hlt];
      [|reflexivity].
    cbn [lookup list_lookup]. rewrite E.
    destruct (Z.ltb_spec block_num 1); [reflexivity|].
    destruct (Z.ltb_spec BLOCK_NUM_MAX block_num); [reflexivity | lia].
Qed.

Lemma main_reads_missing_argument_witness :
  main_arguments (fun z : Z => (z, false)) [0] = Returned 1 /\
  (1 <= 81 <= BLOCK_NUM_MAX ->
   main_arguments (fun z : Z => (z, false)) [0; 81] = NullArgument) /\
  (81 < 1 \/ BLOCK_NUM_MAX < 81 ->
   main_arguments (fun z : Z => (z, false)) (0 :: 81 :: [5]) = Returned 1).
Proof.
  apply (main_reads_missing_argument (fun z : Z => (z, false)) 0 81 [5] 81).
  reflexivity.
Defined.

(** ** The words written by the single-precision kernel *)

Section FloatOutputs.

Variable params : list mtgp32_params_fast_t.
Variables (block_num : Z) (dev : device) (bid : Z) (p : mtgp32_params_fast_t).
Hypothesis block_num_range : 0 <= block_num <= BLOCK_NUM_MAX.
Hypothesis params_enough : block_num <= Z.of_nat (length params).
Hypothesis loaded : load_device params block_num = Ok dev.
Hypothesis bid_range : 0 <= bid < block_num.
Hypothesis params_bid : params !! Z.to_nat bid = Some p.
Hypothesis sh1_range : 0 <= sh1 p < 32.
Hypothesis sh2_range : 0 <= sh2 p < 32.
Hypothesis tbl_u32 : Forall is_u32 (tbl p).
Hypothesis flt_length : length (flt_tmp_tbl p) = 16%nat.
Hypothesis flt_exponent : Forall exponent_one (flt_tmp_tbl p).

Lemma temper_single_float V T :
  is_u32 V -> float_one_two (temper_single dev V T bid).
Proof.
  intros HV.
  rewrite (temper_single_temperFloat params block_num dev bid p) by assumption.
  unfold spec_temperFloat, float_one_two.
  apply float_word_range; [exact HV|].
  assert (Hj : (Z.to_nat (spec_reduce T mod 16) < length (flt_tmp_tbl p))%nat).
  { pose proof (Z.mod_pos_bound (spec_reduce T) 16 ltac:(lia)). lia. }
  destruct (nth_lookup_or_length (flt_tmp_tbl p) (Z.to_nat (spec_reduce T mod 16)) 0)
    as [Hn | Hn]; [|lia].
  eapply Forall_lookup_1; eauto.
Qed.

Lemma nth_window_u32 (W : list Z) (k : nat) : Forall is_u32 W -> is_u32 (nth k W 0).
Proof.
  intros HW. destruct (nth_lookup_or_length W k 0) as [Hn | Hn].
  - eapply Forall_lookup_1; eauto.
  - rewrite nth_overflow by lia. unfold is_u32. lia.
Qed.

Lemma seq_generate_floats pos (n : nat) (W : list Z) :
  Forall is_u32 W ->
  Forall is_u32 (seq_generate temper_single dev bid pos n W).1 /\
  Forall float_one_two (seq_generate temper_single dev bid pos n W).2.
Proof.
  revert W. induction n as [|n IH]; intros W HW.
  - cbn [seq_generate fst snd]. split; [exact HW | constructor].
  - cbn [seq_generate]. unfold seq_step.
    set (r := para_rec dev _ _ _ bid).
    assert (Hr : is_u32 r).
    { apply (para_rec_u32 params block_num dev bid p); try assumption;
        apply nth_window_u32, HW. }
    assert (HW1 : Forall is_u32 (drop 1 W ++ [r])).
    { apply Forall_app. split; [apply Forall_drop, HW | constructor; [exact Hr | constructor]]. }
    destruct (IH _ HW1) as [H1 H2].
    destruct (seq_generate temper_single dev bid pos n (drop 1 W ++ [r])) as [s2 os].
    cbn [fst snd] in *. split; [exact H1|].
    constructor; [apply temper_single_float, Hr | exact H2].
Qed.

End FloatOutputs.



(** ** Counts that are not a multiple of the batch size: the kernels *)

(** The main loop of [mtgp32_uint32_kernel]: no pass for a [size] of at
    most 0, and for every other [size] a first pass that stops in its third
    phase. *)
Lemma uint32_loop_enters (dev : device) (bid pos size : Z) (status d_data : list Z) :
  1 <= pos <= N - 2 * THREAD_NUM ->
  0 <= size * bid ->
  size * bid + LARGE_SIZE * Z.of_nat (length (batch_list size))
  <= Z.of_nat (length d_data) ->
  for_step (Z.to_nat size) LARGE_SIZE size 0 (uint32_batch dev bid pos size)
    (status, d_data)
  = if size <=? 0 then Ok (status, d_data) else Fault (OutOfBounds Shared 1024).
Proof.
  intros Hpos Hb Hlen. rewrite kernel_loop_unroll.
  revert Hlen. unfold batch_list.
  destruct (Z.leb_spec size 0) as [Hs | Hs].
  - intros _. rewrite seqZ_nil; [reflexivity|].
    unfold LARGE_SIZE, THREAD_NUM. Z.to_euclidean_division_equations. lia.
  - assert (Hn : 0 < (size + LARGE_SIZE - 1) / LARGE_SIZE)
      by (unfold LARGE_SIZE, THREAD_NUM; Z.to_euclidean_division_equations; lia).
    rewrite seqZ_cons by exact Hn. cbn [map length for_each]. intros Hlen.
    rewrite uint32_batch_fault; [reflexivity | exact Hpos |].
    unfold LARGE_SIZE, THREAD_NUM in *. lia.
Qed.

(** The main loop of [mtgp32_single_kernel] writes [LARGE_SIZE] words for
    every pass. *)
Lemma single_loop_words (dev : device) (bid pos size : Z) (status W d_data : list Z) :
  1 <= pos <= N - 2 * THREAD_NUM ->
  holds (LARGE_SIZE - N) status W ->
  0 <= size * bid ->
  size * bid + LARGE_SIZE * Z.of_nat (length (batch_list size))
  <= Z.of_nat (length d_data) ->
  exists status' os,
    for_step (Z.to_nat size) LARGE_SIZE size 0 (single_batch dev bid pos size)
      (status, d_data)
    = Ok (status', splice (size * bid) os d_data) /\
    length os = (1024 * length (batch_list size))%nat.
Proof.
  intros Hpos Hh Hb Hlen.
  destruct (single_loop_generates dev bid pos size status W d_data Hpos Hh Hb Hlen)
    as (status' & E & _).
  eexists. eexists. split; [exact E|]. apply length_seq_generate.
Qed.



